(** * rcr-track: the landmark tracking application of superviseddescent

    A shallow embedding of [apps/rcr/rcr-track.cpp]: the bounding-box helper
    [get_enclosing_bbox], the command-line handling and set-up steps of
    [main], and the per-frame detect/track loop.

    Conventions of the model:
    - the entries of a landmark row are [float]s and the values
      [cv::minMaxLoc] reports are [double]s; both are given by the rational
      number they denote.  Comparisons of such values are exact.  The one
      arithmetic operation of the program, the [double] subtraction in
      [get_enclosing_bbox], rounds to nearest, ties to even, to 53
      significant bits ([double_sub]); the difference of two [float]s is
      never subnormal as a [double] and never overflows, so this is IEEE
      754 binary64 subtraction on every row of [float]s.  Infinities and
      NaN are outside the model;
    - a C++ [int] has 32 bits.  The conversion of a [double] to [int]
      discards the fractional part; for a value whose integer part an [int]
      cannot hold, which C++ leaves undefined, it yields [INT_MIN], as the
      conversion instruction of x86-64 does;
    - the collaborators (OpenCV's cascade classifier, drawing and display,
      the rcr landmark model, Boost's command-line tokenizer, the video
      capture) are fields of a record [Collaborators]; in-place mutation of
      the frame buffer [image] is explicit value passing, and every call of
      a collaborator is recorded as an [Event]. *)

From Stdlib Require Import QArith Qround Qminmax ZArith Lia Lqa SpecFloat.
From stdpp Require Import base strings list gmap.

Local Open Scope Q_scope.

(** ** OpenCV primitives used by [get_enclosing_bbox] *)

Module Cv.

(** A call into OpenCV either returns or raises [cv::Exception] (a failed
    [CV_Assert]). *)
Inductive cv_result (A : Type) : Type :=
| cv_ok (a : A)
| cv_error (what : string).
Arguments cv_ok {A} a.
Arguments cv_error {A} what.

#[global] Instance cv_ret : MRet cv_result := fun A a => cv_ok a.
#[global] Instance cv_bind : MBind cv_result := fun A B f m =>
  match m with
  | cv_ok a => f a
  | cv_error what => cv_error what
  end.

(** A single-channel [cv::Mat] with one row, as the landmark rows of rcr
    are: the list of its entries, column 0 first. *)
Definition Mat : Type := list Q.

Definition cols (m : Mat) : Z := Z.of_nat (length m).

(** [Mat::colRange(startcol, endcol)]: the columns [startcol], ...,
    [endcol - 1]; OpenCV asserts that the range lies inside the matrix. *)
Definition colRange (m : Mat) (startcol endcol : Z) : cv_result Mat :=
  if decide (0 <= startcol /\ startcol <= endcol /\ endcol <= cols m)%Z
  then cv_ok (take (Z.to_nat (endcol - startcol)) (drop (Z.to_nat startcol) m))
  else cv_error "0 <= colRange.start && colRange.start <= colRange.end && colRange.end <= m.cols".

(** [cv::minMaxLoc(src, &minVal, &maxVal)]: one scan that keeps the first
    smallest and the first largest entry.  For an array with no entry
    OpenCV reports [0] for both values (no index was found, and
    [minMaxIdx] then sets [dminval = dmaxval = 0]); it raises nothing. *)
Definition minMaxLoc (src : Mat) : Q * Q :=
  match src with
  | [] => (0, 0)
  | v :: vs => (fold_left Qmin vs v, fold_left Qmax vs v)
  end.

(** [cv::Rect_<T>]. *)
Record Rect_ (T : Type) : Type := mkRect {
  rect_x : T;
  rect_y : T;
  rect_width : T;
  rect_height : T
}.
Arguments mkRect {T} _ _ _ _.
Arguments rect_x {T} _.
Arguments rect_y {T} _.
Arguments rect_width {T} _.
Arguments rect_height {T} _.

(** The scalar type [T] of a [cv::Rect_<T>]: how a [double] argument of the
    constructor is converted to [T], and the real number a [T] stands for. *)
Class RectScalar (T : Type) : Type := {
  from_double : Q -> T;
  to_real : T -> Q
}.

(** [N / D] rounded to the nearest integer, ties to the even one
    ([0 <= N], [0 < D]). *)
Definition round_half_even (N D : Z) : Z :=
  let fl := (N / D)%Z in
  let twice := (2 * (N mod D))%Z in
  if (twice <? D)%Z then fl
  else if (D <? twice)%Z then (fl + 1)%Z
  else if Z.even fl then fl else (fl + 1)%Z.

(** The fraction [n / d] divided by [2 ^ e], as numerator and
    denominator. *)
Definition scaled (n d e : Z) : Z * Z :=
  if (0 <=? e)%Z then (n, d * 2 ^ e)%Z else (n * 2 ^ (- e), d)%Z.

(** The positive rational [n / d] rounded to 53 significant bits: the
    exponent [e] is chosen so that [2^52 <= (n / d) / 2^e < 2^53], that
    quotient is rounded to an integer [m], and the result is [m * 2^e]. *)
Definition round_pos (n d : positive) : Q :=
  let e0 := (Z.log2 (Z.pos n) - Z.log2 (Z.pos d) - 53)%Z in
  let e :=
    if (fst (scaled (Z.pos n) (Z.pos d) e0)
        / snd (scaled (Z.pos n) (Z.pos d) e0) <? 2 ^ 53)%Z
    then e0 else (e0 + 1)%Z in
  let m := round_half_even (fst (scaled (Z.pos n) (Z.pos d) e))
                           (snd (scaled (Z.pos n) (Z.pos d) e)) in
  Qred (Qmake (m * 2 ^ Z.max e 0) (Z.to_pos (2 ^ Z.max (- e) 0))).

(** Rounding of a real number to [double], round to nearest, ties to
    even. *)
Definition round_double (q : Q) : Q :=
  match Qnum (Qred q) with
  | Z0 => 0
  | Z.pos n => round_pos n (Qden (Qred q))
  | Z.neg n => - round_pos n (Qden (Qred q))
  end.

(** [a - b] on two [double]s. *)
Definition double_sub (a b : Q) : Q := round_double (a - b).

(** The number a finite value of Stdlib's executable specification of
    IEEE 754 denotes, and the [double] nearest to [m * 2^e]; they serve to
    compare [double_sub] with [SFsub]. *)
Definition SF2Q (f : spec_float) : Q :=
  match f with
  | S754_finite s m e =>
      Qred (Qmake ((if s then Z.neg m else Z.pos m) * 2 ^ Z.max e 0)
                  (Z.to_pos (2 ^ Z.max (- e) 0)))
  | _ => 0
  end.

Definition binary64 (m e : Z) : spec_float := binary_normalize 53 1024 m e false.

Definition INT_MIN : Z := (- 2 ^ 31)%Z.
Definition INT_MAX : Z := (2 ^ 31 - 1)%Z.

(** A rational with its fractional part discarded (toward zero). *)
Definition truncate (q : Q) : Z := Z.quot (Qnum q) (Z.pos (Qden q)).

(** The integer part of [q] is a value of [int]. *)
Definition fits_int (q : Q) : bool :=
  (INT_MIN <=? truncate q)%Z && (truncate q <=? INT_MAX)%Z.

(** Implicit conversion of a [double] to [int]: the fractional part is
    discarded (truncation toward zero); out of range the result is
    [INT_MIN]. *)
Definition double_to_int (q : Q) : Z :=
  if fits_int q then truncate q else INT_MIN.

(** [T = int], the default of the template, i.e. [cv::Rect]. *)
#[global] Instance int_scalar : RectScalar Z := {|
  from_double := double_to_int;
  to_real := inject_Z
|}.

(** [T = double], i.e. [cv::Rect2d]: the constructor receives [double]s
    and keeps them. *)
#[global] Instance double_scalar : RectScalar Q := {|
  from_double := fun q => q;
  to_real := fun q => q
|}.

(** [cv::Rect], the type of the face detector's candidates. *)
Definition Rect : Type := Rect_ Z.

End Cv.
Export Cv.

(** ** [get_enclosing_bbox] (rcr-track.cpp, lines 47-55) *)

Definition get_enclosing_bbox {T : Type} `{RectScalar T} (landmarks : Mat)
  : cv_result (Rect_ T) :=
  let num_landmarks := Z.quot (cols landmarks) 2 in
  xs ← colRange landmarks 0 num_landmarks;
  let '(min_x_val, max_x_val) := minMaxLoc xs in
  ys ← colRange landmarks num_landmarks (cols landmarks);
  let '(min_y_val, max_y_val) := minMaxLoc ys in
  cv_ok (mkRect (from_double min_x_val) (from_double min_y_val)
                (from_double (double_sub max_x_val min_x_val))
                (from_double (double_sub max_y_val min_y_val))).

(** ** Landmark collections *)

(** [rcr::Landmark<cv::Vec2f>] and [rcr::LandmarkCollection<cv::Vec2f>]
    (declared in rcr/landmark.hpp): a named 2D point, and a vector of them
    in the model's landmark order. *)
Record Landmark : Type := mkLandmark {
  name : string;
  coordinates : Q * Q
}.

Definition LandmarkCollection : Type := list Landmark.

Definition xcoords (lms : LandmarkCollection) : list Q :=
  map (fun l => fst (coordinates l)) lms.
Definition ycoords (lms : LandmarkCollection) : list Q :=
  map (fun l => snd (coordinates l)) lms.

(** The row layout that [get_enclosing_bbox] reads: the columns
    [0 .. n-1] hold the x coordinates and the columns [n .. 2n-1] the y
    coordinates of the [n] landmarks. *)
Definition to_row (lms : LandmarkCollection) : Mat := xcoords lms ++ ycoords lms.

(** The four values that [get_enclosing_bbox] computes for a collection
    reach the box without loss: the two minima are kept by the conversion
    to [T], and the two differences are neither rounded by the subtraction
    nor changed by the conversion. *)
Definition stored_exactly (T : Type) `{RectScalar T} (lms : LandmarkCollection)
  : bool :=
  let mx := minMaxLoc (xcoords lms) in
  let my := minMaxLoc (ycoords lms) in
  Qeq_bool (to_real (from_double (T:=T) (fst mx))) (fst mx) &&
  Qeq_bool (to_real (from_double (T:=T) (double_sub (snd mx) (fst mx))))
           (snd mx - fst mx) &&
  Qeq_bool (to_real (from_double (T:=T) (fst my))) (fst my) &&
  Qeq_bool (to_real (from_double (T:=T) (double_sub (snd my) (fst my))))
           (snd my - fst my).

(** The four sides of a box, as real numbers. *)
Definition left_side {T : Type} `{RectScalar T} (box : Rect_ T) : Q :=
  to_real (rect_x box).
Definition right_side {T : Type} `{RectScalar T} (box : Rect_ T) : Q :=
  to_real (rect_x box) + to_real (rect_width box).
Definition top_side {T : Type} `{RectScalar T} (box : Rect_ T) : Q :=
  to_real (rect_y box).
Definition bottom_side {T : Type} `{RectScalar T} (box : Rect_ T) : Q :=
  to_real (rect_y box) + to_real (rect_height box).

(** Every landmark lies inside the box (sides included). *)
Definition encloses {T : Type} `{RectScalar T} (box : Rect_ T)
    (lms : LandmarkCollection) : Prop :=
  forall l, l ∈ lms ->
    left_side box <= fst (coordinates l) <= right_side box /\
    top_side box <= snd (coordinates l) <= bottom_side box.

(** Each of the four sides passes through a landmark. *)
Definition tight {T : Type} `{RectScalar T} (box : Rect_ T)
    (lms : LandmarkCollection) : Prop :=
  (exists l, l ∈ lms /\ fst (coordinates l) == left_side box) /\
  (exists l, l ∈ lms /\ fst (coordinates l) == right_side box) /\
  (exists l, l ∈ lms /\ snd (coordinates l) == top_side box) /\
  (exists l, l ∈ lms /\ snd (coordinates l) == bottom_side box).

(** The box built from the results of the two scans. *)
Definition box_of_scans {T : Type} `{RectScalar T} (xs ys : Mat) : Rect_ T :=
  mkRect (from_double (fst (minMaxLoc xs))) (from_double (fst (minMaxLoc ys)))
         (from_double (double_sub (snd (minMaxLoc xs)) (fst (minMaxLoc xs))))
         (from_double (double_sub (snd (minMaxLoc ys)) (fst (minMaxLoc ys)))).

(** [num_landmarks], as an index into the row. *)
Definition half (landmarks : Mat) : nat := Z.to_nat (Z.quot (cols landmarks) 2).

(** ** The scale factor of the specification *)

(** The failures the specification names for the geometry utility. *)
Inductive geometry_result (A : Type) : Type :=
| geometry_ok (a : A)
| InvalidInput
| DegenerateGeometry.
Arguments geometry_ok {A} a.
Arguments InvalidInput {A}.
Arguments DegenerateGeometry {A}.

(** Modelled from the spec: the operation [scaleFactor], which has no
    counterpart in rcr-track.cpp (the disabled lines 171-175 only read the
    width and the height of the mean shape's box).  In the spec's words it
    computes the enclosing box of both collections, which fails with
    [InvalidInput] on an empty collection, and returns
    [(subject.width / reference.width, subject.height / reference.height)],
    failing with [DegenerateGeometry] when the reference box has zero width
    or height.  The boxes are those of [get_enclosing_bbox] at
    [T = double]. *)
Definition scaleFactor (subject reference : LandmarkCollection)
  : geometry_result (Q * Q) :=
  match subject, reference with
  | [], _ | _, [] => InvalidInput
  | _ :: _, _ :: _ =>
      match get_enclosing_bbox (T:=Q) (to_row subject),
            get_enclosing_bbox (T:=Q) (to_row reference) with
      | cv_ok s, cv_ok r =>
          if Qeq_bool (rect_width r) 0 || Qeq_bool (rect_height r) 0
          then DegenerateGeometry
          else geometry_ok (rect_width s / rect_width r,
                            rect_height s / rect_height r)
      | _, _ => InvalidInput
      end
  end.

(** ** The collaborators of [main] *)

Inductive exit_status : Type := EXIT_SUCCESS | EXIT_FAILURE.

(** Boost.Program_options: a call returns or throws a [po::error] carrying
    the text of [what()]. *)
Inductive po_result (A : Type) : Type :=
| po_ok (a : A)
| po_error (what : string).
Arguments po_ok {A} a.
Arguments po_error {A} what.

(** [rcr::load_detection_model] returns or throws a [cereal::Exception]. *)
Inductive cereal_result (A : Type) : Type :=
| cereal_ok (a : A)
| cereal_error (what : string).
Arguments cereal_ok {A} a.
Arguments cereal_error {A} what.

(** Everything [main] calls and does not define.  A frame buffer is a value
    of [Image]; the two drawing routines, which write into their argument,
    return the new content of the buffer. *)
Record Collaborators : Type := {
  (** [cv::Mat] holding a frame, and [Mat::empty()] *)
  Image : Type;
  image_empty : Image -> bool;
  (** [po::command_line_parser(argc, argv).options(desc).run()] and the
      conversion of the values in [po::store]: the options given on the
      command line, by long name (a flag maps to the empty string), or a
      [po::error] *)
  parse_command_line : list string -> po_result (gmap string string);
  (** [rcr::detection_model], its loader and [detection_model::detect] *)
  detection_model : Type;
  load_detection_model : string -> cereal_result detection_model;
  detect : detection_model -> Image -> Rect -> LandmarkCollection;
  (** [cv::CascadeClassifier]: [load] ([None] when it returns false) and
      [detectMultiScale(image, faces, 1.2, 2, 0, cv::Size(50, 50))] *)
  CascadeClassifier : Type;
  cascade_load : string -> option CascadeClassifier;
  detectMultiScale : CascadeClassifier -> Image -> list Rect;
  (** [cv::VideoCapture::open] on camera 0 ([None]) or on a file; the result
      is [None] when [isOpened()] is false, and otherwise the frames that
      [cap >> image] will deliver, each paired with the key code that
      [cv::waitKey(30)] returns in the iteration that shows it *)
  capture_open : option string -> option (list (Image * Z));
  (** [cv::rectangle(image, rect, {255, 0, 0})] *)
  rectangle : Image -> Rect -> Image;
  (** [rcr::draw_landmarks(image, landmarks)] *)
  draw_landmarks : Image -> LandmarkCollection -> Image
}.

(** The observable calls of a run, in program order. *)
Inductive Event (Image : Type) : Type :=
| EvCout (line : string)
| EvCoutOptions
| EvCoutTimings
| EvNamedWindow (winname : string)
| EvDetectMultiScale (image : Image)
| EvRectangle (image : Image) (rect : Rect)
| EvModelDetect (image : Image) (facebox : Rect)
| EvDrawLandmarks (image : Image) (landmarks : LandmarkCollection)
| EvImshow (winname : string) (image : Image)
| EvWaitKey (key : Z).
Arguments EvCout {Image} line.
Arguments EvCoutOptions {Image}.
Arguments EvCoutTimings {Image}.
Arguments EvNamedWindow {Image} winname.
Arguments EvDetectMultiScale {Image} image.
Arguments EvRectangle {Image} image rect.
Arguments EvModelDetect {Image} image facebox.
Arguments EvDrawLandmarks {Image} image landmarks.
Arguments EvImshow {Image} winname image.
Arguments EvWaitKey {Image} key.

(** The events that invoke the landmark model or draw into a frame. *)
Definition is_model_or_overlay {Image : Type} (ev : Event Image) : bool :=
  match ev with
  | EvRectangle _ _ | EvModelDetect _ _ | EvDrawLandmarks _ _ => true
  | _ => false
  end.

(** The two variables that live across iterations of the frame loop. *)
Record TrackState : Type := mkTrackState {
  have_face : bool;
  current_landmarks : LandmarkCollection
}.

(** [bool have_face = false; LandmarkCollection current_landmarks;] *)
Definition initial_state : TrackState := mkTrackState false [].

(** Which arm of [if (!have_face)] an iteration takes. *)
Inductive Branch : Type := DetectBranch | TrackingBranch.

(** ** The frame loop of [main] (lines 136-181) *)

Section FrameLoop.

Context (W : Collaborators).
Context (rcr_model : detection_model W) (face_cascade : CascadeClassifier W).

(** One executed iteration: the frame it captured, the arm it took, the
    content of the buffer [image] when the iteration ends, the state it
    leaves, its events, and whether it leaves the loop. *)
Record Iteration : Type := mkIteration {
  it_frame : Image W;
  it_branch : Branch;
  it_image : Image W;
  it_state : TrackState;
  it_events : list (Event (Image W));
  it_break : bool
}.

(** The body of the loop after the end-of-video test, for a non-empty
    frame [image]; [key] is what [cv::waitKey(30)] returns. *)
Definition loop_body (image : Image W) (key : Z) (st : TrackState) : Iteration :=
  if negb (have_face st) then
    let detected_faces := detectMultiScale W face_cascade image in
    match detected_faces with
    | [] =>
        (* imshow; waitKey; continue *)
        mkIteration image DetectBranch image st
          [EvDetectMultiScale image; EvImshow "video" image; EvWaitKey key]
          false
    | face0 :: _ =>
        let image1 := rectangle W image face0 in
        let landmarks := detect W rcr_model image1 face0 in
        let image2 := draw_landmarks W image1 landmarks in
        (* have_face is not assigned: the assignment is commented out *)
        mkIteration image DetectBranch image2
          (mkTrackState (have_face st) landmarks)
          [EvDetectMultiScale image; EvRectangle image face0;
           EvModelDetect image1 face0; EvDrawLandmarks image1 landmarks;
           EvCoutTimings; EvImshow "video" image2; EvWaitKey key]
          (bool_decide (0 <= key)%Z)
    end
  else
    (* the else arm holds only comments *)
    mkIteration image TrackingBranch image st
      [EvImshow "video" image; EvWaitKey key]
      (bool_decide (0 <= key)%Z).

(** [for (;;)]: the iterations executed on the frames the capture
    delivers.  The loop ends at the first empty frame (a capture that has
    run out delivers one) or after an iteration that breaks. *)
Fixpoint track_loop (frames : list (Image W * Z)) (st : TrackState)
  : list Iteration :=
  match frames with
  | [] => []
  | (image, key) :: rest =>
      if image_empty W image then []
      else
        let it := loop_body image key st in
        it :: (if it_break it then [] else track_loop rest (it_state it))
  end.

(** The frames the loop gets to see: those before the first empty one. *)
Fixpoint delivered (frames : list (Image W * Z)) : list (Image W) :=
  match frames with
  | [] => []
  | (image, _) :: rest =>
      if image_empty W image then [] else image :: delivered rest
  end.

Definition loop_events (its : list Iteration) : list (Event (Image W)) :=
  concat (map it_events its).

End FrameLoop.

Arguments it_frame {W} _.
Arguments it_branch {W} _.
Arguments it_image {W} _.
Arguments it_state {W} _.
Arguments it_events {W} _.
Arguments it_break {W} _.

(** ** [main] (lines 67-183) *)

Definition dquote : string := String (Ascii.ascii_of_nat 34) EmptyString.

(** [cout << path]: Boost prints a path between double quotes. *)
Definition quoted (path : string) : string := dquote +:+ path +:+ dquote.

Definition default_model : string := "data/rcr/face_landmarks_model_rcr_22.bin".

(** [po::store]: the parsed options, and the default of every option that
    declares one and was not given: only [model] does. *)
Definition store (parsed : gmap string string) : gmap string string :=
  match parsed !! "model" with
  | Some _ => parsed
  | None => <["model" := default_model]> parsed
  end.

(** [po::notify]: throws [po::required_option] when an option declared
    [required()] has no value: [facedetector] and [model] are. *)
Definition notify (vm : gmap string string) : po_result unit :=
  match vm !! "facedetector", vm !! "model" with
  | None, _ => po_error "the option '--facedetector' is required but missing"
  | _, None => po_error "the option '--model' is required but missing"
  | Some _, Some _ => po_ok tt
  end.

(** The two lines of the [catch (const po::error& e)] handler. *)
Definition parse_error_output {Image : Type} (what : string) : list (Event Image) :=
  [EvCout ("Error while parsing command-line arguments: " +:+ what);
   EvCout "Use --help to display a list of options."].

(** The [try] block of lines 70-90: the option values when [main] goes on,
    and otherwise the result [main] returns with. *)
Definition parse_options (W : Collaborators) (argv : list string)
  : (exit_status * list (Event (Image W))) + gmap string string :=
  match parse_command_line W argv with
  | po_error what => inl (EXIT_SUCCESS, parse_error_output what)
  | po_ok parsed =>
      let vm := store parsed in
      if bool_decide (is_Some (vm !! "help")) then
        inl (EXIT_SUCCESS, [EvCout "Usage: rcr-track [options]"; EvCoutOptions])
      else
        match notify vm with
        | po_error what => inl (EXIT_SUCCESS, parse_error_output what)
        | po_ok _ => inr vm
        end
  end.

Definition main (W : Collaborators) (argv : list string)
  : exit_status * list (Event (Image W)) :=
  match parse_options W argv with
  | inl result => result
  | inr vm =>
      let facedetector := default "" (vm !! "facedetector") in
      let modelfile := default "" (vm !! "model") in
      let inputimage := default "" (vm !! "image") in
      match load_detection_model W modelfile with
      | cereal_error what =>
          (EXIT_FAILURE,
           [EvCout ("Error reading the RCR model " +:+ quoted modelfile
                    +:+ ": " +:+ what)])
      | cereal_ok rcr_model =>
          match cascade_load W facedetector with
          | None =>
              (EXIT_FAILURE,
               [EvCout ("Error loading the face detector "
                        +:+ quoted facedetector +:+ ".")])
          | Some face_cascade =>
              let source := if bool_decide (inputimage = "") then None
                            else Some inputimage in
              match capture_open W source with
              | None =>
                  (EXIT_FAILURE,
                   [EvCout "Couldn't open the given file or camera 0."])
              | Some frames =>
                  (EXIT_SUCCESS,
                   EvNamedWindow "video"
                   :: loop_events W
                        (track_loop W rcr_model face_cascade frames initial_state))
              end
          end
      end
  end.

(** A command line fails option parsing when the [try] block throws a
    [po::error]: the tokenizer does, or, when [help] was not asked for,
    [notify] does. *)
Inductive throws_po_error (W : Collaborators) (argv : list string)
  : string -> Prop :=
| throws_in_parser (what : string) :
    parse_command_line W argv = po_error what ->
    throws_po_error W argv what
| throws_in_notify (parsed : gmap string string) (what : string) :
    parse_command_line W argv = po_ok parsed ->
    store parsed !! "help" = None ->
    notify (store parsed) = po_error what ->
    throws_po_error W argv what.

(** A run that reaches the frame loop: the options parse, the model and the
    face detector load and the capture opens. *)
Definition runs_frame_loop (W : Collaborators) (argv : list string) : Prop :=
  exists vm rcr_model face_cascade frames,
    parse_options W argv = inr vm /\
    load_detection_model W (default "" (vm !! "model")) = cereal_ok rcr_model /\
    cascade_load W (default "" (vm !! "facedetector")) = Some face_cascade /\
    capture_open W (if bool_decide (default "" (vm !! "image") = "") then None
                    else Some (default "" (vm !! "image"))) = Some frames.

(** The detector finds no face in a frame. *)
Definition no_face (W : Collaborators) (face_cascade : CascadeClassifier W)
    (image : Image W) : bool :=
  match detectMultiScale W face_cascade image with
  | [] => true
  | _ :: _ => false
  end.

(** ** A sample world

    A concrete set of collaborators on which the model runs: frames are
    terms that record what was drawn on them, the detector finds two faces
    in every odd-numbered frame and none elsewhere, and the landmark model
    answers with the two corners of the box it is given. *)

Module Sample.

Inductive SymImage : Type :=
| NoFrame
| Captured (n : nat)
| WithRectangle (image : SymImage) (rect : Rect)
| WithLandmarks (image : SymImage) (landmarks : LandmarkCollection).

Definition sym_empty (image : SymImage) : bool :=
  match image with
  | NoFrame => true
  | _ => false
  end.

Definition face_a : Rect := (mkRect 100 50 80 80)%Z.
Definition face_b : Rect := (mkRect 10 10 60 60)%Z.

Definition sym_faces (image : SymImage) : list Rect :=
  match image with
  | Captured n => if Nat.odd n then [face_a; face_b] else []
  | _ => []
  end.

Definition corners (facebox : Rect) : LandmarkCollection :=
  [mkLandmark "top_left"
     (inject_Z (rect_x facebox), inject_Z (rect_y facebox));
   mkLandmark "bottom_right"
     (inject_Z (rect_x facebox + rect_width facebox),
      inject_Z (rect_y facebox + rect_height facebox))].

(** A tokenizer for the four options of rcr-track, long and short form,
    each value in the token after its option. *)
Fixpoint tokens (args : list string) (vm : gmap string string)
  : po_result (gmap string string) :=
  match args with
  | [] => po_ok vm
  | tok :: rest =>
      if bool_decide (tok = "--help" \/ tok = "-h") then
        tokens rest (<["help" := ""]> vm)
      else
        let long :=
          if bool_decide (tok = "--facedetector" \/ tok = "-f") then Some "facedetector"
          else if bool_decide (tok = "--model" \/ tok = "-m") then Some "model"
          else if bool_decide (tok = "--image" \/ tok = "-i") then Some "image"
          else None in
        match long, rest with
        | None, _ => po_error ("unrecognised option '" +:+ tok +:+ "'")
        | Some _, [] =>
            po_error ("the required argument for option '" +:+ tok
                      +:+ "' is missing")
        | Some key, value :: rest' => tokens rest' (<[key := value]> vm)
        end
  end.

Definition command_line (argv : list string) : po_result (gmap string string) :=
  tokens (tail argv) ∅.

Definition video : list (SymImage * Z) :=
  [(Captured 0, -1); (Captured 1, -1); (Captured 2, 113); (Captured 3, -1);
   (Captured 5, 27); (Captured 7, -1)]%Z.

Definition world : Collaborators := {|
  Image := SymImage;
  image_empty := sym_empty;
  parse_command_line := command_line;
  detection_model := unit;
  load_detection_model := fun path =>
    if bool_decide (path = default_model) then cereal_ok tt
    else cereal_error "Failed to read 4 bytes from input stream";
  detect := fun _ _ facebox => corners facebox;
  CascadeClassifier := unit;
  cascade_load := fun path =>
    if bool_decide (path = "haarcascade_frontalface_alt2.xml") then Some tt
    else None;
  detectMultiScale := fun _ image => sym_faces image;
  capture_open := fun source =>
    match source with
    | None => Some []
    | Some path => if bool_decide (path = "video.avi") then Some video else None
    end;
  rectangle := WithRectangle;
  draw_landmarks := WithLandmarks
|}.

(** Frames in which the sample detector finds nothing. *)
Definition empty_street : list (SymImage * Z) :=
  [(Captured 0, -1); (Captured 2, 113); (Captured 4, -1)]%Z.


(** Two landmarks at fractional positions. *)
Definition fractional : LandmarkCollection :=
  [mkLandmark "a" (1 # 2, 1 # 2); mkLandmark "b" (3 # 2, 5 # 2)].

(** Two landmarks at whole positions. *)
Definition whole : LandmarkCollection :=
  [mkLandmark "a" (1, 2); mkLandmark "b" (4, 7)].

(** Whole-numbered corners and a landmark at a fractional position
    between them. *)
Definition pinned : LandmarkCollection :=
  [mkLandmark "a" (0, 0); mkLandmark "b" (1 # 2, 3 # 2); mkLandmark "c" (2, 3)].

(** Two landmarks whose x coordinates, [-2^31] and [1 + 2^-23], are
    [float]s with a difference that no [double] holds. *)
Definition far_apart : LandmarkCollection :=
  [mkLandmark "a" (- (2147483648), 0);
   mkLandmark "b" (8388609 # 8388608, 1)].

End Sample.

(** ** Further vocabulary for statements about the program *)

(** The collection moved by [(dx, dy)]. *)
Definition shift (dx dy : Q) (lms : LandmarkCollection) : LandmarkCollection :=
  map (fun l => mkLandmark (name l)
                  (fst (coordinates l) + dx, snd (coordinates l) + dy)) lms.

(** The frames handed to the face detector, to [imshow] and to the landmark
    model, in the order of the calls. *)
Definition detector_inputs {Image : Type} (evs : list (Event Image)) : list Image :=
  omap (fun ev => match ev with
                  | EvDetectMultiScale image => Some image
                  | _ => None
                  end) evs.

Definition shown_images {Image : Type} (evs : list (Event Image)) : list Image :=
  omap (fun ev => match ev with
                  | EvImshow _ image => Some image
                  | _ => None
                  end) evs.

Definition model_inputs {Image : Type} (evs : list (Event Image))
  : list (Image * Rect) :=
  omap (fun ev => match ev with
                  | EvModelDetect image facebox => Some (image, facebox)
                  | _ => None
                  end) evs.

(** The sample world on a machine where no model file can be read. *)
Definition unprovisioned_world : Collaborators := {|
  Image := Sample.SymImage;
  image_empty := Sample.sym_empty;
  parse_command_line := Sample.command_line;
  detection_model := unit;
  load_detection_model := fun _ =>
    cereal_error "Failed to read 4 bytes from input stream";
  detect := fun _ _ facebox => Sample.corners facebox;
  CascadeClassifier := unit;
  cascade_load := fun _ => Some tt;
  detectMultiScale := fun _ image => Sample.sym_faces image;
  capture_open := fun _ => Some Sample.video;
  rectangle := Sample.WithRectangle;
  draw_landmarks := Sample.WithLandmarks
|}.

(** * Proofs *)

(** Membership in a list that is written out. *)
Ltac elem_of_written :=
  repeat first [apply list_elem_of_here | apply list_elem_of_further].

Example bbox_int : get_enclosing_bbox (T:=Z) [1; 5; 3; 2; 8; 4] = cv_ok (mkRect 1 2 4 6)%Z.
Proof. reflexivity. Qed.


(** ** Facts about the min/max scan *)

Section MinMax.

Lemma Qmin_cases (a b : Q) : Qmin a b = a \/ Qmin a b = b.
Proof.
  unfold Qmin, GenericMinMax.gmin. destruct (a ?= b); auto.
Qed.

Lemma Qmax_cases (a b : Q) : Qmax a b = a \/ Qmax a b = b.
Proof.
  unfold Qmax, GenericMinMax.gmax. destruct (a ?= b); auto.
Qed.

Lemma fold_min_elem (vs : list Q) (v : Q) : fold_left Qmin vs v ∈ v :: vs.
Proof.
  revert v. induction vs as [|w vs IH]; intros v; simpl.
  - apply list_elem_of_here.
  - specialize (IH (Qmin v w)).
    apply elem_of_cons in IH as [Heq | Hin].
    + rewrite Heq. destruct (Qmin_cases v w) as [-> | ->].
      * apply list_elem_of_here.
      * apply list_elem_of_further, list_elem_of_here.
    + do 2 apply list_elem_of_further. exact Hin.
Qed.

Lemma fold_max_elem (vs : list Q) (v : Q) : fold_left Qmax vs v ∈ v :: vs.
Proof.
  revert v. induction vs as [|w vs IH]; intros v; simpl.
  - apply list_elem_of_here.
  - specialize (IH (Qmax v w)).
    apply elem_of_cons in IH as [Heq | Hin].
    + rewrite Heq. destruct (Qmax_cases v w) as [-> | ->].
      * apply list_elem_of_here.
      * apply list_elem_of_further, list_elem_of_here.
    + do 2 apply list_elem_of_further. exact Hin.
Qed.

Lemma fold_min_le_init (vs : list Q) (v : Q) : fold_left Qmin vs v <= v.
Proof.
  revert v. induction vs as [|w vs IH]; intros v; simpl.
  - apply Qle_refl.
  - eapply Qle_trans; [apply IH | apply Q.le_min_l].
Qed.

Lemma fold_max_ge_init (vs : list Q) (v : Q) : v <= fold_left Qmax vs v.
Proof.
  revert v. induction vs as [|w vs IH]; intros v; simpl.
  - apply Qle_refl.
  - eapply Qle_trans; [apply Q.le_max_l | apply IH].
Qed.

Lemma fold_min_lower (vs : list Q) (v a : Q) :
  a ∈ v :: vs -> fold_left Qmin vs v <= a.
Proof.
  revert v. induction vs as [|w vs IH]; intros v Ha; simpl.
  - apply list_elem_of_singleton in Ha as ->. apply Qle_refl.
  - apply elem_of_cons in Ha as [-> | Ha].
    + eapply Qle_trans; [apply fold_min_le_init | apply Q.le_min_l].
    + apply elem_of_cons in Ha as [-> | Ha].
      * eapply Qle_trans; [apply fold_min_le_init | apply Q.le_min_r].
      * apply IH. apply list_elem_of_further. exact Ha.
Qed.

Lemma fold_max_upper (vs : list Q) (v a : Q) :
  a ∈ v :: vs -> a <= fold_left Qmax vs v.
Proof.
  revert v. induction vs as [|w vs IH]; intros v Ha; simpl.
  - apply list_elem_of_singleton in Ha as ->. apply Qle_refl.
  - apply elem_of_cons in Ha as [-> | Ha].
    + eapply Qle_trans; [apply Q.le_max_l | apply fold_max_ge_init].
    + apply elem_of_cons in Ha as [-> | Ha].
      * eapply Qle_trans; [apply Q.le_max_r | apply fold_max_ge_init].
      * apply IH. apply list_elem_of_further. exact Ha.
Qed.

(** On a non-empty range [minMaxLoc] returns two of its entries, a lower
    and an upper bound of all of them. *)
Lemma minMaxLoc_spec (src : Mat) :
  src <> [] ->
  fst (minMaxLoc src) ∈ src /\ snd (minMaxLoc src) ∈ src /\
  forall a, a ∈ src -> fst (minMaxLoc src) <= a <= snd (minMaxLoc src).
Proof.
  destruct src as [|v vs]; [congruence | intros _]. simpl.
  split; [apply fold_min_elem | split; [apply fold_max_elem |]].
  intros a Ha. split; [apply fold_min_lower | apply fold_max_upper]; exact Ha.
Qed.

End MinMax.

(** ** What [get_enclosing_bbox] computes *)

Section EnclosingBox.

Context {T : Type} `{RectScalar T}.

Lemma half_le (landmarks : Mat) : (half landmarks <= length landmarks)%nat.
Proof.
  unfold half, cols.
  assert (0 <= Z.quot (Z.of_nat (length landmarks)) 2 <= Z.of_nat (length landmarks))%Z.
  { split; [apply Z.quot_pos; lia |].
    rewrite Z.quot_div_nonneg by lia. apply Z.div_le_upper_bound; lia. }
  lia.
Qed.

(** Both column ranges are always inside the row, so no assertion of
    OpenCV fires: the function returns a box for every row. *)
Lemma get_enclosing_bbox_unfold (landmarks : Mat) :
  get_enclosing_bbox landmarks =
  cv_ok (box_of_scans (take (half landmarks) landmarks)
                      (drop (half landmarks) landmarks)).
Proof.
  pose proof (half_le landmarks) as Hle.
  unfold get_enclosing_bbox, colRange, half in *.
  set (q := Z.quot (cols landmarks) 2) in *.
  assert (Hq : (0 <= q <= cols landmarks)%Z).
  { unfold q, cols. split; [apply Z.quot_pos; lia |].
    rewrite Z.quot_div_nonneg by lia. apply Z.div_le_upper_bound; lia. }
  destruct (decide (0 <= 0 /\ 0 <= q /\ q <= cols landmarks)%Z) as [_|Hn]; [|lia].
  destruct (decide (0 <= q /\ q <= cols landmarks /\ cols landmarks <= cols landmarks)%Z)
    as [_|Hn]; [|lia].
  cbn [mbind cv_bind].
  replace (Z.to_nat (q - 0)) with (Z.to_nat q) by lia.
  change (drop (Z.to_nat 0) landmarks) with landmarks.
  rewrite (take_ge (drop (Z.to_nat q) landmarks)).
  2:{ rewrite length_drop. unfold cols. lia. }
  unfold box_of_scans.
  destruct (minMaxLoc (take (Z.to_nat q) landmarks)) as [min_x max_x].
  destruct (minMaxLoc (drop (Z.to_nat q) landmarks)) as [min_y max_y].
  reflexivity.
Qed.

Lemma half_to_row (lms : LandmarkCollection) : half (to_row lms) = length lms.
Proof.
  unfold half, cols, to_row, xcoords, ycoords.
  rewrite length_app, !length_map.
  replace (Z.of_nat (length lms + length lms)) with (Z.of_nat (length lms) * 2)%Z by lia.
  rewrite Z.quot_mul by lia. lia.
Qed.

Lemma get_enclosing_bbox_to_row (lms : LandmarkCollection) :
  get_enclosing_bbox (to_row lms) = cv_ok (box_of_scans (xcoords lms) (ycoords lms)).
Proof.
  rewrite get_enclosing_bbox_unfold, half_to_row. unfold to_row.
  replace (length lms) with (length (xcoords lms)) by apply length_map.
  rewrite take_app_length, drop_app_length. reflexivity.
Qed.

End EnclosingBox.

Section ExactBox.

Context {T : Type} `{RectScalar T}.

Lemma elem_of_xcoords (lms : LandmarkCollection) (v : Q) :
  v ∈ xcoords lms <-> exists l, l ∈ lms /\ fst (coordinates l) = v.
Proof.
  unfold xcoords. rewrite list_elem_of_fmap. split.
  - intros (l & -> & Hl). eauto.
  - intros (l & Hl & <-). eauto.
Qed.

Lemma elem_of_ycoords (lms : LandmarkCollection) (v : Q) :
  v ∈ ycoords lms <-> exists l, l ∈ lms /\ snd (coordinates l) = v.
Proof.
  unfold ycoords. rewrite list_elem_of_fmap. split.
  - intros (l & -> & Hl). eauto.
  - intros (l & Hl & <-). eauto.
Qed.

Lemma stored_exactly_spec (lms : LandmarkCollection) :
  stored_exactly T lms = true <->
  let mx := minMaxLoc (xcoords lms) in
  let my := minMaxLoc (ycoords lms) in
  to_real (from_double (T:=T) (fst mx)) == fst mx /\
  to_real (from_double (T:=T) (double_sub (snd mx) (fst mx))) == snd mx - fst mx /\
  to_real (from_double (T:=T) (fst my)) == fst my /\
  to_real (from_double (T:=T) (double_sub (snd my) (fst my))) == snd my - fst my.
Proof.
  unfold stored_exactly. cbn zeta.
  rewrite !andb_true_iff, !Qeq_bool_iff. tauto.
Qed.

(** When each of the four values is stored without loss, the box of the
    two scans encloses the collection and is tight. *)
Lemma box_of_scans_exact (lms : LandmarkCollection) :
  lms <> [] ->
  let mx := minMaxLoc (xcoords lms) in
  let my := minMaxLoc (ycoords lms) in
  to_real (from_double (T:=T) (fst mx)) == fst mx ->
  to_real (from_double (T:=T) (double_sub (snd mx) (fst mx))) == snd mx - fst mx ->
  to_real (from_double (T:=T) (fst my)) == fst my ->
  to_real (from_double (T:=T) (double_sub (snd my) (fst my))) == snd my - fst my ->
  encloses (box_of_scans (T:=T) (xcoords lms) (ycoords lms)) lms /\
  tight (box_of_scans (T:=T) (xcoords lms) (ycoords lms)) lms.
Proof.
  intros Hne mx my Hx Hw Hy Hh.
  assert (Hxne : xcoords lms <> []) by (destruct lms; [congruence | discriminate]).
  assert (Hyne : ycoords lms <> []) by (destruct lms; [congruence | discriminate]).
  destruct (minMaxLoc_spec _ Hxne) as (Hminx & Hmaxx & Hbx).
  destruct (minMaxLoc_spec _ Hyne) as (Hminy & Hmaxy & Hby).
  fold mx in Hminx, Hmaxx, Hbx. fold my in Hminy, Hmaxy, Hby.
  assert (Hl : left_side (box_of_scans (T:=T) (xcoords lms) (ycoords lms)) == fst mx)
    by exact Hx.
  assert (Hr : right_side (box_of_scans (T:=T) (xcoords lms) (ycoords lms)) == snd mx).
  { unfold right_side, box_of_scans; cbn [rect_x rect_width].
    fold mx. rewrite Hx, Hw. ring. }
  assert (Ht : top_side (box_of_scans (T:=T) (xcoords lms) (ycoords lms)) == fst my)
    by exact Hy.
  assert (Hb : bottom_side (box_of_scans (T:=T) (xcoords lms) (ycoords lms)) == snd my).
  { unfold bottom_side, box_of_scans; cbn [rect_y rect_height].
    fold my. rewrite Hy, Hh. ring. }
  split.
  - intros l Hin. rewrite Hl. rewrite Hr. rewrite Ht. rewrite Hb. split.
    + apply Hbx. apply elem_of_xcoords. eauto.
    + apply Hby. apply elem_of_ycoords. eauto.
  - unfold tight. setoid_rewrite Hl. setoid_rewrite Hr.
    setoid_rewrite Ht. setoid_rewrite Hb.
    apply elem_of_xcoords in Hminx as (l1 & Hl1 & E1).
    apply elem_of_xcoords in Hmaxx as (l2 & Hl2 & E2).
    apply elem_of_ycoords in Hminy as (l3 & Hl3 & E3).
    apply elem_of_ycoords in Hmaxy as (l4 & Hl4 & E4).
    repeat split.
    + exists l1. split; [exact Hl1 | rewrite E1; reflexivity].
    + exists l2. split; [exact Hl2 | rewrite E2; reflexivity].
    + exists l3. split; [exact Hl3 | rewrite E3; reflexivity].
    + exists l4. split; [exact Hl4 | rewrite E4; reflexivity].
Qed.

(** A box that encloses a collection and is tight has the extremes of the
    coordinates as its sides. *)
Lemma tight_sides (box : Rect_ T) (lms : LandmarkCollection) :
  lms <> [] ->
  encloses box lms -> tight box lms ->
  left_side box == fst (minMaxLoc (xcoords lms)) /\
  right_side box == snd (minMaxLoc (xcoords lms)) /\
  top_side box == fst (minMaxLoc (ycoords lms)) /\
  bottom_side box == snd (minMaxLoc (ycoords lms)).
Proof.
  intros Hne Henc ((l1 & Hl1 & E1) & (l2 & Hl2 & E2) &
                   (l3 & Hl3 & E3) & (l4 & Hl4 & E4)).
  assert (Hxne : xcoords lms <> []) by (destruct lms; [congruence | discriminate]).
  assert (Hyne : ycoords lms <> []) by (destruct lms; [congruence | discriminate]).
  destruct (minMaxLoc_spec _ Hxne) as (Hminx & Hmaxx & Hbx).
  destruct (minMaxLoc_spec _ Hyne) as (Hminy & Hmaxy & Hby).
  apply elem_of_xcoords in Hminx as (a & Ha & Ea).
  apply elem_of_xcoords in Hmaxx as (b & Hb & Eb).
  apply elem_of_ycoords in Hminy as (c & Hc & Ec).
  apply elem_of_ycoords in Hmaxy as (d & Hd & Ed).
  assert (B1 := Hbx (fst (coordinates l1)) ltac:(apply elem_of_xcoords; eauto)).
  assert (B2 := Hbx (fst (coordinates l2)) ltac:(apply elem_of_xcoords; eauto)).
  assert (B3 := Hby (snd (coordinates l3)) ltac:(apply elem_of_ycoords; eauto)).
  assert (B4 := Hby (snd (coordinates l4)) ltac:(apply elem_of_ycoords; eauto)).
  destruct (Henc a Ha) as [[A1 _] _]. destruct (Henc b Hb) as [[_ A2] _].
  destruct (Henc c Hc) as [_ [A3 _]]. destruct (Henc d Hd) as [_ [_ A4]].
  rewrite Ea in A1. rewrite Eb in A2. rewrite Ec in A3. rewrite Ed in A4.
  repeat split; apply Qle_antisym; lra.
Qed.

(** The box of the two scans encloses the collection and is tight exactly
    when the four values are stored without loss. *)
Lemma box_of_scans_exact_iff (lms : LandmarkCollection) :
  lms <> [] ->
  encloses (box_of_scans (T:=T) (xcoords lms) (ycoords lms)) lms /\
  tight (box_of_scans (T:=T) (xcoords lms) (ycoords lms)) lms <->
  stored_exactly T lms = true.
Proof.
  intros Hne. rewrite stored_exactly_spec. cbn zeta. split.
  - intros [Henc Htight].
    destruct (tight_sides _ _ Hne Henc Htight) as (Hl & Hr & Ht & Hb).
    unfold left_side, right_side, top_side, bottom_side, box_of_scans in *.
    cbn [rect_x rect_y rect_width rect_height] in *.
    repeat split; lra.
  - intros (Hx & Hw & Hy & Hh). apply box_of_scans_exact; assumption.
Qed.

End ExactBox.

(** ** Rounding and conversion *)

Section Rounding.

Lemma round_half_even_ge (N D : Z) : (N / D <= round_half_even N D)%Z.
Proof.
  unfold round_half_even.
  destruct (2 * (N mod D) <? D)%Z; [lia |].
  destruct (D <? 2 * (N mod D))%Z; [lia |].
  destruct (Z.even (N / D)); lia.
Qed.

(** At an exponent of at most [log2 n - log2 d - 52] the scaled quotient
    is at least one. *)
Lemma scaled_ge_one (n d : positive) (e : Z) :
  (e <= Z.log2 (Z.pos n) - Z.log2 (Z.pos d) - 52)%Z ->
  (0 < snd (scaled (Z.pos n) (Z.pos d) e))%Z /\
  (snd (scaled (Z.pos n) (Z.pos d) e) <= fst (scaled (Z.pos n) (Z.pos d) e))%Z.
Proof.
  intros He.
  destruct (Z.log2_spec (Z.pos n)) as [Hn _]; [lia |].
  destruct (Z.log2_spec (Z.pos d)) as [_ Hd]; [lia |].
  pose proof (Z.log2_nonneg (Z.pos n)) as Hln.
  pose proof (Z.log2_nonneg (Z.pos d)) as Hld.
  set (ln := Z.log2 (Z.pos n)) in *. set (ld := Z.log2 (Z.pos d)) in *.
  unfold scaled. destruct (0 <=? e)%Z eqn:Esign; cbn [fst snd].
  - apply Z.leb_le in Esign.
    assert (Hpow : (0 < 2 ^ e)%Z) by (apply Z.pow_pos_nonneg; lia).
    split; [lia |].
    assert (Hle : (2 ^ (Z.succ ld + e) <= 2 ^ ln)%Z)
      by (apply Z.pow_le_mono_r; lia).
    rewrite Z.pow_add_r in Hle by lia. nia.
  - apply Z.leb_gt in Esign. split; [lia |].
    assert (Hle : (2 ^ Z.succ ld <= 2 ^ (ln + - e))%Z)
      by (apply Z.pow_le_mono_r; lia).
    rewrite Z.pow_add_r in Hle by lia.
    assert (Hpow : (0 < 2 ^ (- e))%Z) by (apply Z.pow_pos_nonneg; lia).
    nia.
Qed.

Lemma round_pos_positive (n d : positive) : 0 < round_pos n d.
Proof.
  unfold round_pos.
  set (e0 := (Z.log2 (Z.pos n) - Z.log2 (Z.pos d) - 53)%Z).
  set (e := if (_ <? 2 ^ 53)%Z then e0 else (e0 + 1)%Z).
  assert (He : (e <= Z.log2 (Z.pos n) - Z.log2 (Z.pos d) - 52)%Z)
    by (unfold e; destruct (_ <? 2 ^ 53)%Z; lia).
  destruct (scaled_ge_one n d e He) as [HD HND].
  set (N := fst (scaled (Z.pos n) (Z.pos d) e)) in *.
  set (D := snd (scaled (Z.pos n) (Z.pos d) e)) in *.
  assert (Hm : (1 <= round_half_even N D)%Z).
  { eapply Z.le_trans; [| apply round_half_even_ge].
    apply Z.div_le_lower_bound; lia. }
  rewrite Qred_correct. unfold Qlt; cbn [Qnum Qden].
  assert (Hpow : (0 < 2 ^ Z.max e 0)%Z) by (apply Z.pow_pos_nonneg; lia).
  nia.
Qed.

Lemma round_double_comp (q q' : Q) : q == q' -> round_double q = round_double q'.
Proof.
  intros Heq. unfold round_double. rewrite (Qred_complete _ _ Heq). reflexivity.
Qed.

Lemma Qred_num_sign (q : Q) :
  ((0 < Qnum (Qred q))%Z <-> 0 < q) /\ (Qnum (Qred q) = 0%Z <-> q == 0) /\
  ((Qnum (Qred q) < 0)%Z <-> q < 0).
Proof.
  pose proof (Qred_correct q) as Hq.
  unfold Qeq, Qlt in *. cbn [Qnum Qden] in *.
  repeat split; nia.
Qed.

Lemma round_double_zero (q : Q) : round_double q == 0 <-> q == 0.
Proof.
  destruct (Qred_num_sign q) as (Hpos & Hzero & Hneg).
  unfold round_double. destruct (Qnum (Qred q)) as [|n|n] eqn:En.
  - split; intros _; [apply Hzero |]; reflexivity.
  - pose proof (round_pos_positive n (Qden (Qred q))) as Hr. split.
    + intros Habs. rewrite Habs in Hr. apply Qlt_irrefl in Hr. contradiction.
    + intros Habs. apply Hzero in Habs. discriminate Habs.
  - pose proof (round_pos_positive n (Qden (Qred q))) as Hr. split.
    + intros Habs. exfalso. lra.
    + intros Habs. apply Hzero in Habs. discriminate Habs.
Qed.


Lemma truncate_nonneg (q : Q) : 0 <= q -> truncate q = Qfloor q.
Proof.
  destruct q as [n d]. unfold Qle, truncate, Qfloor; cbn [Qnum Qden].
  intros Hn. apply Z.quot_div_nonneg; lia.
Qed.

Lemma truncate_nonpos (q : Q) : q <= 0 -> truncate q = Qceiling q.
Proof.
  destruct q as [n d].
  unfold Qle, truncate, Qceiling, Qfloor, Qopp; cbn [Qnum Qden].
  intros Hn.
  replace n with (- - n)%Z at 1 by lia.
  rewrite Z.quot_opp_l by lia.
  rewrite Z.quot_div_nonneg by lia. reflexivity.
Qed.

Lemma truncate_comp (q q' : Q) : q == q' -> truncate q = truncate q'.
Proof.
  intros Heq. destruct (Qlt_le_dec q 0) as [Hneg | Hpos].
  - rewrite !truncate_nonpos.
    + apply Qceiling_comp, Heq.
    + rewrite <- Heq. apply Qlt_le_weak, Hneg.
    + apply Qlt_le_weak, Hneg.
  - rewrite !truncate_nonneg.
    + apply Qfloor_comp, Heq.
    + rewrite <- Heq. exact Hpos.
    + exact Hpos.
Qed.

Lemma double_to_int_comp (q q' : Q) : q == q' -> double_to_int q = double_to_int q'.
Proof.
  intros Heq. unfold double_to_int, fits_int.
  rewrite (truncate_comp _ _ Heq). reflexivity.
Qed.

Lemma double_to_int_fits (q : Q) : fits_int q = true -> double_to_int q = truncate q.
Proof. unfold double_to_int. intros ->. reflexivity. Qed.

(** A value strictly between [INT_MIN - 1] and [INT_MAX + 1] fits. *)
Lemma fits_int_range (q : Q) :
  inject_Z INT_MIN - 1 < q < inject_Z INT_MAX + 1 -> fits_int q = true.
Proof.
  intros [Hlo Hhi]. unfold fits_int.
  apply andb_true_iff. rewrite !Z.leb_le.
  destruct (Qlt_le_dec q 0) as [Hneg | Hpos].
  - rewrite truncate_nonpos by (apply Qlt_le_weak, Hneg).
    pose proof (Qle_ceiling q) as Hle. pose proof (Qceiling_lt q) as Hlt.
    unfold Z.sub in Hlt. rewrite inject_Z_plus in Hlt.
    change (inject_Z (Z.opp 1)) with (Qopp 1) in Hlt.
    split.
    + assert (Hc : inject_Z INT_MIN - 1 < inject_Z (Qceiling q)) by lra.
      assert (Hc' : inject_Z (INT_MIN - 1) < inject_Z (Qceiling q)).
      { unfold Z.sub. rewrite inject_Z_plus.
        change (inject_Z (Z.opp 1)) with (Qopp 1). lra. }
      rewrite <- Zlt_Qlt in Hc'. lia.
    + assert (Hc : inject_Z (Qceiling q - 1) < inject_Z 0).
      { eapply Qlt_trans; [apply Qceiling_lt | exact Hneg]. }
      rewrite <- Zlt_Qlt in Hc. unfold INT_MAX. lia.
  - rewrite truncate_nonneg by exact Hpos.
    pose proof (Qfloor_le q) as Hle. pose proof (Qlt_floor q) as Hlt.
    split.
    + assert (Hc : inject_Z (0 - 1) < inject_Z (Qfloor q + 1)).
      { change (inject_Z (0 - 1)) with (Qopp 1). lra. }
      rewrite <- Zlt_Qlt in Hc. unfold INT_MIN. lia.
    + assert (Hc : inject_Z (Qfloor q) < inject_Z (INT_MAX + 1)).
      { rewrite (inject_Z_plus INT_MAX). change (inject_Z 1) with 1. lra. }
      rewrite <- Zlt_Qlt in Hc. lia.
Qed.

(** Truncation moves a value by less than one. *)
Lemma truncate_near (q : Q) :
  inject_Z (truncate q) - 1 < q /\ q < inject_Z (truncate q) + 1.
Proof.
  destruct (Qlt_le_dec q 0) as [Hneg | Hpos].
  - rewrite truncate_nonpos by (apply Qlt_le_weak, Hneg).
    pose proof (Qle_ceiling q) as Hle. pose proof (Qceiling_lt q) as Hlt.
    unfold Z.sub in Hlt. rewrite inject_Z_plus in Hlt.
    change (inject_Z (Z.opp 1)) with (Qopp 1) in Hlt. split; lra.
  - rewrite truncate_nonneg by exact Hpos.
    pose proof (Qfloor_le q) as Hle. pose proof (Qlt_floor q) as Hlt.
    rewrite inject_Z_plus in Hlt. change (inject_Z 1%Z) with 1%Q in Hlt.
    split; lra.
Qed.


End Rounding.

(** ** The enclosing box: statements about the program *)

(** C1, as stated, fails for the default instantiation of the template:
    with [T = int] the box returned for the two landmarks (1/2, 1/2) and
    (3/2, 5/2) is {0, 0, 1, 2}, whose right side 1 lies left of the second
    landmark. *)
Lemma get_enclosing_bbox_int_excludes_point :
  ~ (exists box : Rect_ Z,
       get_enclosing_bbox (to_row Sample.fractional) = cv_ok box /\
       encloses box Sample.fractional /\ tight box Sample.fractional).
Proof.
  intros (box & Hbox & Henc & _).
  vm_compute in Hbox. injection Hbox as <-.
  destruct (Henc (mkLandmark "b" (3 # 2, 5 # 2))) as [[_ Hright] _].
  - unfold Sample.fractional. elem_of_written.
  - vm_compute in Hright. apply Hright. reflexivity.
Qed.

(** C1 (amended): for every non-empty landmark collection
    [get_enclosing_bbox] returns a box, and that box encloses every
    landmark, [x <= p.x <= x + width] and [y <= p.y <= y + height], with a
    landmark on each of its four sides, exactly when the four values it is
    built from are stored without loss: minX and minY are kept by the
    conversion to the scalar type [T], and the differences maxX - minX and
    maxY - minY are neither rounded by the [double] subtraction nor
    truncated or overflowed by the conversion.  It is then the box
    {minX, minY, maxX - minX, maxY - minY}. *)
Theorem get_enclosing_bbox_encloses_tight (T : Type) `{RectScalar T}
    (lms : LandmarkCollection) :
  lms <> [] ->
  exists box : Rect_ T,
    get_enclosing_bbox (to_row lms) = cv_ok box /\
    (encloses box lms /\ tight box lms <-> stored_exactly T lms = true).
Proof.
  intros Hne.
  exists (box_of_scans (xcoords lms) (ycoords lms)).
  split; [apply get_enclosing_bbox_to_row |].
  apply box_of_scans_exact_iff, Hne.
Qed.

Lemma get_enclosing_bbox_encloses_tight_witness :
  exists box : Rect_ Z,
    get_enclosing_bbox (to_row Sample.pinned) = cv_ok box /\
    (encloses box Sample.pinned /\ tight box Sample.pinned <->
     stored_exactly Z Sample.pinned = true).
Proof.
  apply (get_enclosing_bbox_encloses_tight Z Sample.pinned).
  discriminate.
Defined.

(** C9, as stated, fails in its last part: at [T = double] the box need
    not enclose the landmarks.  For the x coordinates [-2^31] and
    [1 + 2^-23] the difference is rounded to [2^31 + 1], the right side of
    the box is 1, and the second landmark lies outside. *)
Lemma get_enclosing_bbox_double_rounds :
  ~ (exists box : Rect_ Q,
       get_enclosing_bbox (to_row Sample.far_apart) = cv_ok box /\
       encloses box Sample.far_apart /\ tight box Sample.far_apart).
Proof.
  intros (box & Hbox & Henc & _).
  vm_compute in Hbox. injection Hbox as <-.
  destruct (Henc (mkLandmark "b" (8388609 # 8388608, 1))) as [[_ Hright] _].
  - unfold Sample.far_apart. elem_of_written.
  - vm_compute in Hright. apply Hright. reflexivity.
Qed.

(** C9 (amended): at the default [T = int] every field of the box is the
    corresponding [double] value converted to [int], which for a value
    within the range of [int] discards the fractional part (truncation
    toward zero: the floor of a non-negative value, the ceiling of a
    non-positive one); for landmarks at fractional positions the returned
    box can leave a landmark outside.  At [T = double] the box encloses a
    non-empty collection and is tight exactly when the two subtractions
    maxX - minX and maxY - minY are exact, as they are for the landmarks
    (1/2, 1/2) and (3/2, 5/2); when a difference is rounded they can
    fail. *)
Theorem get_enclosing_bbox_int_truncates :
  (forall landmarks : Mat, exists box : Rect_ Q,
     get_enclosing_bbox (T:=Q) landmarks = cv_ok box /\
     get_enclosing_bbox (T:=Z) landmarks =
       cv_ok (mkRect (double_to_int (rect_x box)) (double_to_int (rect_y box))
                     (double_to_int (rect_width box))
                     (double_to_int (rect_height box)))) /\
  (forall q : Q,
     inject_Z INT_MIN - 1 < q < inject_Z INT_MAX + 1 ->
     (0 <= q -> double_to_int q = Qfloor q) /\
     (q <= 0 -> double_to_int q = Qceiling q)) /\
  (exists (lms : LandmarkCollection) (box : Rect_ Z) (l : Landmark),
     lms <> [] /\ get_enclosing_bbox (T:=Z) (to_row lms) = cv_ok box /\
     l ∈ lms /\ right_side box < fst (coordinates l)) /\
  (forall lms : LandmarkCollection, lms <> [] ->
     exists box : Rect_ Q,
       get_enclosing_bbox (T:=Q) (to_row lms) = cv_ok box /\
       (encloses box lms /\ tight box lms <->
        double_sub (snd (minMaxLoc (xcoords lms))) (fst (minMaxLoc (xcoords lms)))
        == snd (minMaxLoc (xcoords lms)) - fst (minMaxLoc (xcoords lms)) /\
        double_sub (snd (minMaxLoc (ycoords lms))) (fst (minMaxLoc (ycoords lms)))
        == snd (minMaxLoc (ycoords lms)) - fst (minMaxLoc (ycoords lms)))) /\
  (exists box : Rect_ Q,
     get_enclosing_bbox (T:=Q) (to_row Sample.fractional) = cv_ok box /\
     encloses box Sample.fractional /\ tight box Sample.fractional).
Proof.
  split; [| split; [| split; [| split]]].
  - intros landmarks.
    exists (box_of_scans (take (half landmarks) landmarks)
                         (drop (half landmarks) landmarks)).
    split; rewrite get_enclosing_bbox_unfold; reflexivity.
  - intros q Hrange.
    rewrite (double_to_int_fits q (fits_int_range q Hrange)).
    split; [apply truncate_nonneg | apply truncate_nonpos].
  - exists Sample.fractional, (mkRect 0 0 1 2)%Z, (mkLandmark "b" (3 # 2, 5 # 2)).
    split; [discriminate |]. split; [reflexivity |]. split.
    + elem_of_written.
    + reflexivity.
  - intros lms Hne.
    exists (box_of_scans (xcoords lms) (ycoords lms)).
    split; [apply get_enclosing_bbox_to_row |].
    rewrite (box_of_scans_exact_iff (T:=Q) lms Hne), stored_exactly_spec.
    cbn [to_real from_double double_scalar]. cbn zeta.
    split; [tauto |]. intros [Hw Hh]. repeat split; try assumption; reflexivity.
  - exists (box_of_scans (xcoords Sample.fractional) (ycoords Sample.fractional)).
    split; [apply get_enclosing_bbox_to_row |].
    apply (box_of_scans_exact_iff (T:=Q)); [discriminate | reflexivity].
Qed.

(** C6, as stated, fails: on the empty landmark row the function returns
    the box {0, 0, 0, 0} and raises nothing. *)
Lemma get_enclosing_bbox_empty_returns :
  get_enclosing_bbox (T:=Z) (to_row []) = cv_ok (mkRect 0 0 0 0)%Z /\
  ~ (exists what : string,
       get_enclosing_bbox (T:=Z) (to_row []) = cv_error what).
Proof.
  split; [reflexivity |]. intros [what Hwhat]. discriminate Hwhat.
Qed.

(** C6 (amended): [get_enclosing_bbox] has no check for an empty input and
    no failure of its own.  For every landmark row and every scalar type
    it returns a box; for the empty row both scans run over no entry, for
    which [cv::minMaxLoc] reports 0 and 0, and the box is the conversion of
    {0, 0, 0, 0}. *)
Theorem get_enclosing_bbox_total :
  forall (T : Type) (HT : RectScalar T),
    (forall landmarks : Mat, exists box : Rect_ T,
       get_enclosing_bbox landmarks = cv_ok box) /\
    get_enclosing_bbox (T:=T) (to_row []) =
      cv_ok (mkRect (from_double 0) (from_double 0)
                    (from_double (0 - 0)) (from_double (0 - 0))).
Proof.
  intros T HT. split.
  - intros landmarks. eexists. apply get_enclosing_bbox_unfold.
  - reflexivity.
Qed.

(** C7: for every collection [S] whose enclosing box has non-zero width
    and height, [scaleFactor S S] returns a pair of ratios both equal to 1
    (in lowest terms, the pair (1, 1)). *)
Theorem scaleFactor_same_is_one (S : LandmarkCollection) (box : Rect_ Q) :
  get_enclosing_bbox (to_row S) = cv_ok box ->
  ~ rect_width box == 0 ->
  ~ rect_height box == 0 ->
  exists sx sy : Q,
    scaleFactor S S = geometry_ok (sx, sy) /\
    sx == 1 /\ sy == 1 /\ (Qred sx, Qred sy) = (1, 1).
Proof.
  intros Hbox Hw Hh. unfold scaleFactor.
  destruct S as [|l S'].
  { vm_compute in Hbox. injection Hbox as <-. exfalso. apply Hw. reflexivity. }
  rewrite Hbox.
  destruct (Qeq_bool (rect_width box) 0) eqn:Ew.
  { apply Qeq_bool_eq in Ew. contradiction. }
  destruct (Qeq_bool (rect_height box) 0) eqn:Eh.
  { apply Qeq_bool_eq in Eh. contradiction. }
  cbn [orb].
  assert (Hsx : rect_width box / rect_width box == 1) by (field; exact Hw).
  assert (Hsy : rect_height box / rect_height box == 1) by (field; exact Hh).
  exists (rect_width box / rect_width box), (rect_height box / rect_height box).
  split; [reflexivity |]. split; [exact Hsx |]. split; [exact Hsy |].
  f_equal; [change 1 with (Qred 1) | change 1 with (Qred 1)];
    apply Qred_complete; assumption.
Qed.

Lemma scaleFactor_same_is_one_witness :
  exists sx sy : Q,
    scaleFactor Sample.whole Sample.whole = geometry_ok (sx, sy) /\
    sx == 1 /\ sy == 1 /\ (Qred sx, Qred sy) = (1, 1).
Proof.
  apply (scaleFactor_same_is_one Sample.whole (mkRect 1 2 (3 # 1) (5 # 1))).
  - reflexivity.
  - discriminate.
  - discriminate.
Defined.

(** ** The frame loop: calls and control *)

Lemma omap_cons_app {A B : Type} (f : A -> option B) (x : A) (l : list A) :
  omap f (x :: l) = from_option (fun y => [y]) [] (f x) ++ omap f l.
Proof. cbn [omap list_omap]. destruct (f x); reflexivity. Qed.

Section FrameLoopMore.

Context (W : Collaborators).
Context (rcr_model : detection_model W) (face_cascade : CascadeClassifier W).

Local Abbreviation body := (loop_body W rcr_model face_cascade).
Local Abbreviation loop := (track_loop W rcr_model face_cascade).

Lemma track_loop_cons (image : Image W) (key : Z) (rest : list (Image W * Z))
    (st : TrackState) :
  image_empty W image = false ->
  loop ((image, key) :: rest) st =
  body image key st ::
    (if it_break (body image key st) then []
     else loop rest (it_state (body image key st))).
Proof. intros Hne. cbn [track_loop]. rewrite Hne. reflexivity. Qed.

Lemma loop_events_cons (it : Iteration W) (its : list (Iteration W)) :
  loop_events W (it :: its) = it_events it ++ loop_events W its.
Proof. reflexivity. Qed.

(** Without a face in the state, the body leaves the loop only on a frame
    with a face during which a key was pressed. *)
Lemma loop_body_break (image : Image W) (key : Z) (st : TrackState) :
  have_face st = false ->
  it_break (body image key st) = true ->
  no_face W face_cascade image = false /\ (0 <= key)%Z /\
  last (it_events (body image key st)) = Some (EvWaitKey key).
Proof.
  unfold loop_body, no_face. intros ->. cbn [negb].
  destruct (detectMultiScale W face_cascade image) as [|face0 others];
    cbn [it_break it_events].
  - discriminate.
  - intros Hbreak. apply bool_decide_eq_true in Hbreak. repeat split. exact Hbreak.
Qed.

(** What the body hands to the detector, to [imshow] and to the model. *)
Lemma loop_body_calls (image : Image W) (key : Z) (st : TrackState) :
  have_face st = false ->
  detector_inputs (it_events (body image key st)) = [image] /\
  model_inputs (it_events (body image key st)) =
    match detectMultiScale W face_cascade image with
    | [] => []
    | face0 :: _ => [(rectangle W image face0, face0)]
    end.
Proof.
  unfold loop_body. intros ->. cbn [negb].
  destruct (detectMultiScale W face_cascade image); split; reflexivity.
Qed.

Lemma loop_body_shown (image : Image W) (key : Z) (st : TrackState) :
  shown_images (it_events (body image key st)) = [it_image (body image key st)].
Proof.
  unfold loop_body. destruct (have_face st); cbn [negb]; [reflexivity |].
  destruct (detectMultiScale W face_cascade image); reflexivity.
Qed.

(** Without a face in the state, what the body does with a frame does not
    depend on the landmarks kept from earlier frames. *)
Lemma loop_body_forgets (image : Image W) (key : Z) (lms lms' : LandmarkCollection) :
  it_events (body image key (mkTrackState false lms)) =
  it_events (body image key (mkTrackState false lms')) /\
  it_break (body image key (mkTrackState false lms)) =
  it_break (body image key (mkTrackState false lms')) /\
  exists kept kept',
    it_state (body image key (mkTrackState false lms)) = mkTrackState false kept /\
    it_state (body image key (mkTrackState false lms')) = mkTrackState false kept'.
Proof.
  unfold loop_body. cbn [have_face negb].
  destruct (detectMultiScale W face_cascade image); cbn; eauto 6.
Qed.

Lemma detector_inputs_app (evs evs' : list (Event (Image W))) :
  detector_inputs (evs ++ evs') = detector_inputs evs ++ detector_inputs evs'.
Proof. apply omap_app. Qed.

Lemma model_inputs_app (evs evs' : list (Event (Image W))) :
  model_inputs (evs ++ evs') = model_inputs evs ++ model_inputs evs'.
Proof. apply omap_app. Qed.

Lemma shown_images_app (evs evs' : list (Event (Image W))) :
  shown_images (evs ++ evs') = shown_images evs ++ shown_images evs'.
Proof. apply omap_app. Qed.

Lemma track_loop_delivered_nil (frames : list (Image W * Z)) (st : TrackState) :
  delivered W frames = [] -> loop frames st = [].
Proof.
  destruct frames as [|[image key] rest]; [reflexivity |].
  cbn [delivered track_loop]. destruct (image_empty W image); [reflexivity | discriminate].
Qed.

End FrameLoopMore.

(** ** The frame loop: statements about the program *)

Section FrameLoopFacts.

Context (W : Collaborators).
Context (rcr_model : detection_model W) (face_cascade : CascadeClassifier W).

Local Abbreviation body := (loop_body W rcr_model face_cascade).
Local Abbreviation loop := (track_loop W rcr_model face_cascade).

(** No arm of the body assigns [have_face]. *)
Lemma loop_body_have_face (image : Image W) (key : Z) (st : TrackState) :
  have_face (it_state (body image key st)) = have_face st.
Proof.
  unfold loop_body.
  destruct (have_face st) eqn:E; cbn [negb]; [exact E |].
  destruct (detectMultiScale W face_cascade image); [exact E | reflexivity].
Qed.

Lemma loop_body_branch (image : Image W) (key : Z) (st : TrackState) :
  it_branch (body image key st) =
  if have_face st then TrackingBranch else DetectBranch.
Proof.
  unfold loop_body.
  destruct (have_face st); cbn [negb]; [reflexivity |].
  destruct (detectMultiScale W face_cascade image); reflexivity.
Qed.

Lemma loop_body_frame (image : Image W) (key : Z) (st : TrackState) :
  it_frame (body image key st) = image.
Proof.
  unfold loop_body.
  destruct (have_face st); cbn [negb]; [reflexivity |].
  destruct (detectMultiScale W face_cascade image); reflexivity.
Qed.

(** The invariant of the loop: started without a face, every iteration
    takes the detection arm and ends without a face. *)
Lemma track_loop_invariant (frames : list (Image W * Z)) (st : TrackState) :
  have_face st = false ->
  Forall (fun it => have_face (it_state it) = false /\ it_branch it = DetectBranch)
         (loop frames st).
Proof.
  revert st. induction frames as [|[image key] rest IH]; intros st Hst.
  - constructor.
  - cbn [track_loop]. destruct (image_empty W image); [constructor |].
    assert (Hnext : have_face (it_state (body image key st)) = false)
      by (rewrite loop_body_have_face; exact Hst).
    constructor.
    + split; [exact Hnext |]. rewrite loop_body_branch, Hst. reflexivity.
    + destruct (it_break (body image key st)); [constructor | apply IH, Hnext].
Qed.

(** The body on a frame without a face. *)
Lemma loop_body_no_face (image : Image W) (key : Z) (st : TrackState) :
  have_face st = false ->
  no_face W face_cascade image = true ->
  body image key st =
  mkIteration W image DetectBranch image st
    [EvDetectMultiScale image; EvImshow "video" image; EvWaitKey key] false.
Proof.
  unfold loop_body, no_face. intros -> Hnone. cbn [negb].
  destruct (detectMultiScale W face_cascade image); [reflexivity | discriminate].
Qed.

Lemma track_loop_no_faces (frames : list (Image W * Z)) (st : TrackState) :
  have_face st = false ->
  forallb (fun frame => no_face W face_cascade (fst frame)) frames = true ->
  Forall (fun it =>
            it_state it = st /\ it_image it = it_frame it /\
            exists key, it_events it =
              [EvDetectMultiScale (it_frame it); EvImshow "video" (it_frame it);
               EvWaitKey key])
         (loop frames st) /\
  map it_frame (loop frames st) = delivered W frames.
Proof.
  intros Hst. induction frames as [|[image key] rest IH]; intros Hall.
  - split; [constructor | reflexivity].
  - cbn [forallb fst] in Hall. apply andb_true_iff in Hall as [Hnone Hrest].
    cbn [track_loop delivered]. destruct (image_empty W image).
    { split; [constructor | reflexivity]. }
    rewrite (loop_body_no_face image key st Hst Hnone).
    cbn [it_break it_state]. destruct (IH Hrest) as [IHits IHframes]. split.
    + constructor; [| exact IHits].
      cbn. split; [reflexivity |]. split; [reflexivity |]. exists key. reflexivity.
    + cbn [map it_frame]. rewrite IHframes. reflexivity.
Qed.

(** Started without a face, every iteration runs the detector once, on
    the frame it captured. *)
Lemma track_loop_detects (frames : list (Image W * Z)) (st : TrackState) :
  have_face st = false ->
  Forall (fun it => detector_inputs (it_events it) = [it_frame it])
         (loop frames st).
Proof.
  revert st. induction frames as [|[image key] rest IH]; intros st Hst.
  - constructor.
  - cbn [track_loop]. destruct (image_empty W image); [constructor |].
    constructor.
    + rewrite loop_body_frame.
      apply (loop_body_calls W rcr_model face_cascade image key st Hst).
    + destruct (it_break (body image key st)); [constructor |].
      apply IH. rewrite loop_body_have_face. exact Hst.
Qed.

(** The iterations follow the delivered frames, one each and in order,
    and reach the last of them unless an iteration leaves the loop. *)
Lemma track_loop_covers (frames : list (Image W * Z)) (st : TrackState) :
  map it_frame (loop frames st) `prefix_of` delivered W frames /\
  (map it_frame (loop frames st) = delivered W frames \/
   exists it, last (loop frames st) = Some it /\ it_break it = true).
Proof.
  revert st. induction frames as [|[image key] rest IH]; intros st.
  - split; [reflexivity | left; reflexivity].
  - cbn [track_loop delivered].
    destruct (image_empty W image); [split; [reflexivity | left; reflexivity] |].
    cbn [map]. rewrite loop_body_frame.
    destruct (it_break (body image key st)) eqn:Hbreak.
    + split; [apply prefix_cons, prefix_nil |].
      right. exists (body image key st). split; [reflexivity | exact Hbreak].
    + destruct (IH (it_state (body image key st))) as [Hpre Hend].
      split; [apply prefix_cons, Hpre |].
      destruct Hend as [Hall | (it & Hlast & Hbr)].
      * left. rewrite Hall. reflexivity.
      * right. exists it. split; [| exact Hbr]. rewrite last_cons, Hlast. reflexivity.
Qed.

End FrameLoopFacts.

(** C2: for every frame sequence the loop runs one iteration for each
    delivered frame, in order, until the frames end or an iteration leaves
    the loop on a key press; every iteration takes the detection arm, runs
    the face detector on the frame it captured, exactly once, and ends with
    [have_face] false, also when a face was found and the landmarks were
    fitted.  No iteration takes the tracking arm. *)
Theorem have_face_stays_false :
  forall (W : Collaborators) (rcr_model : detection_model W)
         (face_cascade : CascadeClassifier W) (frames : list (Image W * Z)),
    let its := track_loop W rcr_model face_cascade frames initial_state in
    Forall (fun it => have_face (it_state it) = false /\
                      it_branch it = DetectBranch /\
                      detector_inputs (it_events it) = [it_frame it])
           its /\
    map it_frame its `prefix_of` delivered W frames /\
    (map it_frame its = delivered W frames \/
     exists it, last its = Some it /\ it_break it = true) /\
    (forall image key st,
        have_face st = false ->
        have_face (it_state (loop_body W rcr_model face_cascade image key st))
        = false /\
        detector_inputs
          (it_events (loop_body W rcr_model face_cascade image key st))
        = [image]).
Proof.
  intros W rcr_model face_cascade frames its.
  pose proof (track_loop_invariant W rcr_model face_cascade frames initial_state
                eq_refl) as Hinv.
  pose proof (track_loop_detects W rcr_model face_cascade frames initial_state
                eq_refl) as Hdet.
  destruct (track_loop_covers W rcr_model face_cascade frames initial_state)
    as [Hpre Hend].
  fold its in Hinv, Hdet, Hpre, Hend.
  split; [| split; [exact Hpre | split; [exact Hend |]]].
  - clear Hpre Hend. clearbody its.
    induction Hinv as [|it rest [Hface Hbranch] _ IH];
      [constructor |].
    inversion Hdet as [|? ? Hcall Hdet']; subst.
    constructor; [repeat split; assumption | apply IH, Hdet'].
  - intros image key st Hst. split.
    + rewrite loop_body_have_face. exact Hst.
    + apply (loop_body_calls W rcr_model face_cascade image key st Hst).
Qed.

Lemma have_face_stays_false_witness :
  have_face
    (it_state (loop_body Sample.world tt tt (Sample.Captured 1) (-1) initial_state))
  = false /\
  detector_inputs
    (it_events (loop_body Sample.world tt tt (Sample.Captured 1) (-1) initial_state))
  = [Sample.Captured 1].
Proof.
  apply (have_face_stays_false Sample.world tt tt []). reflexivity.
Defined.


(** C4: started in [NO_TRACK], on frames in each of which the detector
    finds no face, the loop runs one iteration per delivered frame; each
    leaves the state as it was at the start ([have_face] false), shows the
    captured frame as it is, and consists of the detector call, [imshow]
    and [waitKey] only: the landmark model and the drawing routines are
    not invoked. *)
Theorem no_faces_stays_no_track (W : Collaborators)
    (rcr_model : detection_model W) (face_cascade : CascadeClassifier W)
    (frames : list (Image W * Z)) :
  forallb (fun frame => no_face W face_cascade (fst frame)) frames = true ->
  let its := track_loop W rcr_model face_cascade frames initial_state in
  map it_frame its = delivered W frames /\
  Forall (fun it =>
            it_state it = initial_state /\ it_branch it = DetectBranch /\
            it_image it = it_frame it /\
            (exists key, it_events it =
               [EvDetectMultiScale (it_frame it);
                EvImshow "video" (it_frame it); EvWaitKey key]) /\
            forallb (fun ev => negb (is_model_or_overlay ev)) (it_events it)
            = true)
         its.
Proof.
  intros Hall its.
  destruct (track_loop_no_faces W rcr_model face_cascade frames initial_state
              eq_refl Hall) as [Hits Hframes].
  pose proof (track_loop_invariant W rcr_model face_cascade frames initial_state
                eq_refl) as Hinv.
  split; [exact Hframes |].
  fold its in Hits, Hinv. clearbody its.
  induction Hits as [|it rest (Hst & Himg & key & Hev) _ IH]; [constructor |].
  inversion Hinv as [|? ? [_ Hbr] Hinv']; subst.
  constructor; [| apply IH, Hinv'].
  repeat split; try assumption.
  - exists key. exact Hev.
  - rewrite Hev. reflexivity.
Qed.

Lemma no_faces_stays_no_track_witness :
  let its := track_loop Sample.world tt tt Sample.empty_street initial_state in
  map it_frame its = delivered Sample.world Sample.empty_street /\
  Forall (fun it =>
            it_state it = initial_state /\ it_branch it = DetectBranch /\
            it_image it = it_frame it /\
            (exists key, it_events it =
               [EvDetectMultiScale (it_frame it);
                EvImshow "video" (it_frame it); EvWaitKey key]) /\
            forallb (fun ev => negb (is_model_or_overlay ev)) (it_events it)
            = true)
         its.
Proof.
  apply (no_faces_stays_no_track Sample.world tt tt Sample.empty_street).
  reflexivity.
Defined.

(** C5: without a face, when the detector returns one or more candidates,
    the first of them, in the detector's order, is the one used: the
    rectangle is drawn for it, the landmark model's [detect] is run once,
    with that box, the landmarks it returns are drawn and shown, and
    [current_landmarks] holds them. *)
Theorem first_candidate_is_fitted (W : Collaborators)
    (rcr_model : detection_model W) (face_cascade : CascadeClassifier W)
    (image : Image W) (key : Z) (st : TrackState)
    (face0 : Rect) (others : list Rect) :
  have_face st = false ->
  detectMultiScale W face_cascade image = face0 :: others ->
  let it := loop_body W rcr_model face_cascade image key st in
  let fitted := detect W rcr_model (rectangle W image face0) face0 in
  current_landmarks (it_state it) = fitted /\
  it_image it = draw_landmarks W (rectangle W image face0) fitted /\
  it_events it =
    [EvDetectMultiScale image; EvRectangle image face0;
     EvModelDetect (rectangle W image face0) face0;
     EvDrawLandmarks (rectangle W image face0) fitted;
     EvCoutTimings; EvImshow "video" (it_image it); EvWaitKey key] /\
  (forall frame facebox,
      EvModelDetect frame facebox ∈ it_events it -> facebox = face0).
Proof.
  intros Hst Hfaces it fitted. subst it fitted.
  unfold loop_body. rewrite Hst, Hfaces. cbn [negb].
  repeat split.
  intros frame facebox Hin. cbn [it_events] in Hin.
  repeat (apply elem_of_cons in Hin as [Heq | Hin]; [try discriminate Heq |]).
  - injection Heq as _ ->. reflexivity.
  - apply elem_of_nil in Hin. contradiction.
Qed.

Lemma first_candidate_is_fitted_witness :
  let it := loop_body Sample.world tt tt (Sample.Captured 1) (-1) initial_state in
  let fitted := Sample.corners Sample.face_a in
  current_landmarks (it_state it) = fitted /\
  it_image it =
    Sample.WithLandmarks
      (Sample.WithRectangle (Sample.Captured 1) Sample.face_a) fitted /\
  it_events it =
    [EvDetectMultiScale (Sample.Captured 1);
     EvRectangle (Sample.Captured 1) Sample.face_a;
     EvModelDetect (Sample.WithRectangle (Sample.Captured 1) Sample.face_a)
                   Sample.face_a;
     EvDrawLandmarks (Sample.WithRectangle (Sample.Captured 1) Sample.face_a)
                     fitted;
     EvCoutTimings; EvImshow "video" (it_image it); EvWaitKey (-1)] /\
  (forall frame facebox,
      EvModelDetect frame facebox ∈ it_events it -> facebox = Sample.face_a).
Proof.
  apply (first_candidate_is_fitted Sample.world tt tt (Sample.Captured 1) (-1)
           initial_state Sample.face_a [Sample.face_b]).
  - reflexivity.
  - reflexivity.
Defined.

(** C8, as stated, fails: on a frame with a face the buffer that held the
    captured frame ends the iteration with the rectangle and the landmarks
    drawn into it, and the landmark model is given the frame with the
    rectangle already drawn, not the frame as captured. *)
Lemma overlay_drawn_on_captured_frame :
  let it := loop_body Sample.world tt tt (Sample.Captured 1) (-1) initial_state in
  it_image it <> it_frame it /\
  ~ (forall frame facebox,
       EvModelDetect frame facebox ∈ it_events it -> frame = it_frame it).
Proof.
  cbn zeta. split.
  - discriminate.
  - intros Hall.
    specialize (Hall (Sample.WithRectangle (Sample.Captured 1) Sample.face_a)
                     Sample.face_a).
    cbn in Hall. discriminate Hall.
    elem_of_written.
Qed.

(** C8 (amended): no copy of the frame is made; rectangle and landmarks
    are drawn into the buffer that holds the captured frame.  In every
    iteration the buffer as it is at the end is what is shown.  On a frame
    with a face (and no track) the face detector is given the frame as
    captured, the landmark model is given the frame with the rectangle of
    the first candidate drawn into it, and the buffer ends as that frame
    with the fitted landmarks drawn into it as well; in every other case
    the buffer still holds the frame as captured. *)
Theorem overlay_is_drawn_in_place :
  forall (W : Collaborators) (rcr_model : detection_model W)
         (face_cascade : CascadeClassifier W)
         (image : Image W) (key : Z) (st : TrackState),
    let it := loop_body W rcr_model face_cascade image key st in
    it_frame it = image /\
    EvImshow "video" (it_image it) ∈ it_events it /\
    match have_face st, detectMultiScale W face_cascade image with
    | false, face0 :: _ =>
        let boxed := rectangle W image face0 in
        EvDetectMultiScale image ∈ it_events it /\
        EvModelDetect boxed face0 ∈ it_events it /\
        it_image it = draw_landmarks W boxed (detect W rcr_model boxed face0)
    | _, _ => it_image it = image
    end.
Proof.
  intros W rcr_model face_cascade image key st it. subst it.
  unfold loop_body.
  destruct (have_face st); cbn [negb].
  - repeat split. elem_of_written.
  - destruct (detectMultiScale W face_cascade image) as [|face0 others].
    + repeat split. elem_of_written.
    + cbn [it_frame it_image it_events]. repeat split.
      * elem_of_written.
      * elem_of_written.
      * elem_of_written.
Qed.

(** ** [main]: statements about the program *)

(** C10: for every command line on which option parsing throws a
    [po::error] (the tokenizer rejects it, or a required option is
    missing), [main] prints the error message and the hint about --help and
    returns [EXIT_SUCCESS], the status that every run reaching the frame
    loop returns as well. *)
Theorem parse_error_exits_with_success (W : Collaborators)
    (argv : list string) (what : string) :
  throws_po_error W argv what ->
  main W argv =
    (EXIT_SUCCESS,
     [EvCout ("Error while parsing command-line arguments: " +:+ what);
      EvCout "Use --help to display a list of options."]) /\
  (forall argv' : list string,
      runs_frame_loop W argv' -> fst (main W argv') = fst (main W argv)).
Proof.
  intros Hthrow.
  assert (Hmain : main W argv = (EXIT_SUCCESS, parse_error_output what)).
  { unfold main, parse_options.
    destruct Hthrow as [what Hparse | parsed what Hparse Hhelp Hnotify].
    - rewrite Hparse. reflexivity.
    - rewrite Hparse. cbn zeta.
      rewrite bool_decide_eq_false_2.
      2:{ rewrite Hhelp. intros [? ?]. discriminate. }
      rewrite Hnotify. reflexivity. }
  split; [exact Hmain |].
  intros argv' (vm & model & cascade & frames & Hopts & Hmodel & Hcascade & Hcap).
  rewrite Hmain. unfold main. rewrite Hopts. cbn zeta.
  rewrite Hmodel, Hcascade, Hcap. reflexivity.
Qed.

Lemma parse_error_exits_with_success_witness :
  main Sample.world ["rcr-track"; "--image"; "video.avi"] =
    (EXIT_SUCCESS,
     [EvCout ("Error while parsing command-line arguments: "
              +:+ "the option '--facedetector' is required but missing");
      EvCout "Use --help to display a list of options."]) /\
  (forall argv' : list string,
      runs_frame_loop Sample.world argv' ->
      fst (main Sample.world argv') =
      fst (main Sample.world ["rcr-track"; "--image"; "video.avi"])).
Proof.
  apply (parse_error_exits_with_success Sample.world
           ["rcr-track"; "--image"; "video.avi"]
           "the option '--facedetector' is required but missing").
  apply (throws_in_notify Sample.world _ (<["image" := "video.avi"]> ∅)).
  - reflexivity.
  - vm_compute. reflexivity.
  - vm_compute. reflexivity.
Defined.

(** ** Runs of the sample world *)

Example bbox_fractional_double :
  get_enclosing_bbox (T:=Q) (to_row Sample.fractional)
  = cv_ok (mkRect (1 # 2) (1 # 2) 1 2).
Proof. reflexivity. Qed.

Example bbox_fractional_int :
  get_enclosing_bbox (T:=Z) (to_row Sample.fractional) = cv_ok (mkRect 0 0 1 2)%Z.
Proof. reflexivity. Qed.

Example bbox_odd_row :
  get_enclosing_bbox (T:=Z) [3; 4; 5] = cv_ok (mkRect 3 4 0 1)%Z.
Proof. reflexivity. Qed.

Example double_to_int_negative : double_to_int (- 3 # 2) = (-1)%Z.
Proof. reflexivity. Qed.

Example double_to_int_too_large : double_to_int 4000000000 = INT_MIN.
Proof. reflexivity. Qed.

(** A width of 4e9 does not fit an [int]. *)
Example bbox_int_overflow :
  get_enclosing_bbox (T:=Z) [- (2000000000); 2000000000; 0; 0]
  = cv_ok (mkRect (-2000000000) 0 INT_MIN 0)%Z.
Proof. reflexivity. Qed.

(** The rounded subtraction agrees with [SFsub], Stdlib's executable
    specification of IEEE 754 subtraction at 53 bits: where the exact
    difference [2^31 + 1 + 2^-23] is rounded down, where [1 - 2^-60] is
    rounded up to 1, on the two ties [2^53 + 1] and [2^53 + 3], and on
    [float]s of very different magnitude. *)
Example double_sub_far_apart :
  double_sub (8388609 # 8388608) (- (2147483648)) = 2147483649 /\
  SF2Q (SFsub 53 1024 (binary64 8388609 (-23)) (binary64 (-1) 31)) = 2147483649.
Proof. split; vm_compute; reflexivity. Qed.

Example double_sub_rounds_up :
  double_sub 1 (1 # 1152921504606846976) = 1 /\
  SF2Q (SFsub 53 1024 (binary64 1 0) (binary64 1 (-60))) = 1.
Proof. split; vm_compute; reflexivity. Qed.

Example double_sub_ties_to_even :
  double_sub 9007199254740992 (- (1)) = 9007199254740992 /\
  SF2Q (SFsub 53 1024 (binary64 (2 ^ 53) 0) (binary64 (-1) 0)) = 9007199254740992 /\
  double_sub 9007199254740992 (- (3)) = 9007199254740996 /\
  SF2Q (SFsub 53 1024 (binary64 (2 ^ 53) 0) (binary64 (-3) 0)) = 9007199254740996.
Proof. repeat split; vm_compute; reflexivity. Qed.

Example double_sub_mixed_magnitudes :
  double_sub (SF2Q (binary64 12345677 (-30))) (SF2Q (binary64 9999999 33))
  = SF2Q (SFsub 53 1024 (binary64 12345677 (-30)) (binary64 9999999 33)) /\
  double_sub (SF2Q (binary64 16777215 104)) (SF2Q (binary64 (-1) (-149)))
  = SF2Q (SFsub 53 1024 (binary64 16777215 104) (binary64 (-1) (-149))).
Proof. split; vm_compute; reflexivity. Qed.

(** The four values are not stored without loss when a difference is
    rounded, when a conversion truncates, or when it overflows. *)
Example stored_exactly_fails :
  stored_exactly Q Sample.far_apart = false /\
  stored_exactly Z Sample.fractional = false /\
  stored_exactly Z [mkLandmark "a" (- (2000000000), 0);
                    mkLandmark "b" (2000000000, 0)] = false /\
  stored_exactly Q Sample.fractional = true.
Proof. repeat split; vm_compute; reflexivity. Qed.

(** A fractional landmark between whole-numbered corners does not disturb
    the box at [T = int]. *)
Example bbox_pinned_int :
  get_enclosing_bbox (T:=Z) (to_row Sample.pinned) = cv_ok (mkRect 0 0 2 3)%Z /\
  stored_exactly Z Sample.pinned = true.
Proof. split; reflexivity. Qed.

Example scaleFactor_degenerate :
  scaleFactor Sample.whole [mkLandmark "a" (1, 2); mkLandmark "b" (1, 7)]
  = DegenerateGeometry.
Proof. reflexivity. Qed.

(** The sample video: a frame without a face, one with, one without (the
    key pressed while it is shown is ignored), one with, and one with a
    face during which a key is pressed, which ends the loop before the
    last frame. *)
Example sample_video_iterations :
  map (fun it => (it_frame it, it_branch it, have_face (it_state it), it_break it))
      (track_loop Sample.world tt tt Sample.video initial_state)
  = [(Sample.Captured 0, DetectBranch, false, false);
     (Sample.Captured 1, DetectBranch, false, false);
     (Sample.Captured 2, DetectBranch, false, false);
     (Sample.Captured 3, DetectBranch, false, false);
     (Sample.Captured 5, DetectBranch, false, true)].
Proof. reflexivity. Qed.

Example sample_run_reaches_loop :
  runs_frame_loop Sample.world
    ["rcr-track"; "-f"; "haarcascade_frontalface_alt2.xml"; "-i"; "video.avi"].
Proof.
  exists (<["model" := default_model]>
            (<["image" := "video.avi"]>
               (<["facedetector" := "haarcascade_frontalface_alt2.xml"]> ∅))),
         tt, tt, Sample.video.
  repeat split; vm_compute; reflexivity.
Qed.

Example main_help :
  main Sample.world ["rcr-track"; "--help"]
  = (EXIT_SUCCESS, [EvCout "Usage: rcr-track [options]"; EvCoutOptions]).
Proof. vm_compute. reflexivity. Qed.

(** The parser runs before the help test. *)
Example main_help_with_unknown_option :
  main Sample.world ["rcr-track"; "-h"; "--verbose"]
  = (EXIT_SUCCESS,
     [EvCout ("Error while parsing command-line arguments: "
              +:+ "unrecognised option '--verbose'");
      EvCout "Use --help to display a list of options."]).
Proof. vm_compute. reflexivity. Qed.

Example main_unknown_option :
  fst (main Sample.world ["rcr-track"; "--verbose"]) = EXIT_SUCCESS.
Proof. vm_compute. reflexivity. Qed.

Example main_no_detector_file :
  fst (main Sample.world ["rcr-track"; "-f"; "missing.xml"]) = EXIT_FAILURE.
Proof. vm_compute. reflexivity. Qed.

Example main_no_video_file :
  main Sample.world
    ["rcr-track"; "-f"; "haarcascade_frontalface_alt2.xml"; "-i"; "missing.avi"]
  = (EXIT_FAILURE, [EvCout "Couldn't open the given file or camera 0."]).
Proof. vm_compute. reflexivity. Qed.

(** * Further properties of the program *)

(** ** [get_enclosing_bbox] *)

Section ScanFacts.


(** Two rows with the same entries have the same extremes. *)
Lemma minMaxLoc_same_entries (src src' : Mat) :
  src <> [] ->
  (forall a, a ∈ src <-> a ∈ src') ->
  fst (minMaxLoc src) == fst (minMaxLoc src') /\
  snd (minMaxLoc src) == snd (minMaxLoc src').
Proof.
  intros Hne Hsame.
  assert (Hne' : src' <> []).
  { destruct src as [|v vs]; [congruence |]. intros ->.
    assert (Hv : v ∈ []) by (apply Hsame; elem_of_written).
    apply elem_of_nil in Hv. exact Hv. }
  destruct (minMaxLoc_spec src Hne) as (Hmin & Hmax & Hb).
  destruct (minMaxLoc_spec src' Hne') as (Hmin' & Hmax' & Hb').
  split; apply Qle_antisym.
  - apply Hb, Hsame, Hmin'.
  - apply Hb', Hsame, Hmin.
  - apply Hb', Hsame, Hmax.
  - apply Hb, Hsame, Hmax'.
Qed.

End ScanFacts.


(** X2: the box does not depend on the order of the landmarks: two
    collections that are permutations of each other get boxes with equal
    fields at [T = double], and the same box at [T = int]. *)
Theorem get_enclosing_bbox_order_independent (lms lms' : LandmarkCollection) :
  lms ≡ₚ lms' ->
  (exists box box' : Rect_ Q,
     get_enclosing_bbox (to_row lms) = cv_ok box /\
     get_enclosing_bbox (to_row lms') = cv_ok box' /\
     rect_x box == rect_x box' /\ rect_y box == rect_y box' /\
     rect_width box == rect_width box' /\
     rect_height box == rect_height box') /\
  get_enclosing_bbox (T:=Z) (to_row lms) = get_enclosing_bbox (T:=Z) (to_row lms').
Proof.
  intros Hperm.
  assert (Hmm :
    fst (minMaxLoc (xcoords lms)) == fst (minMaxLoc (xcoords lms')) /\
    snd (minMaxLoc (xcoords lms)) == snd (minMaxLoc (xcoords lms')) /\
    fst (minMaxLoc (ycoords lms)) == fst (minMaxLoc (ycoords lms')) /\
    snd (minMaxLoc (ycoords lms)) == snd (minMaxLoc (ycoords lms'))).
  { destruct lms as [|l rest].
    - apply Permutation_nil_l in Hperm. subst lms'. repeat split; reflexivity.
    - assert (Hx : forall a, a ∈ xcoords (l :: rest) <-> a ∈ xcoords lms').
      { intros a. rewrite !elem_of_xcoords.
        split; intros (l0 & Hl0 & E); exists l0; split; try exact E.
        - rewrite <- Hperm. exact Hl0.
        - rewrite Hperm. exact Hl0. }
      assert (Hy : forall a, a ∈ ycoords (l :: rest) <-> a ∈ ycoords lms').
      { intros a. rewrite !elem_of_ycoords.
        split; intros (l0 & Hl0 & E); exists l0; split; try exact E.
        - rewrite <- Hperm. exact Hl0.
        - rewrite Hperm. exact Hl0. }
      destruct (minMaxLoc_same_entries (xcoords (l :: rest)) (xcoords lms')
                  ltac:(discriminate) Hx) as [? ?].
      destruct (minMaxLoc_same_entries (ycoords (l :: rest)) (ycoords lms')
                  ltac:(discriminate) Hy) as [? ?].
      repeat split; assumption. }
  destruct Hmm as (Hminx & Hmaxx & Hminy & Hmaxy).
  assert (Hw : double_sub (snd (minMaxLoc (xcoords lms)))
                          (fst (minMaxLoc (xcoords lms))) =
               double_sub (snd (minMaxLoc (xcoords lms')))
                          (fst (minMaxLoc (xcoords lms'))))
    by (apply round_double_comp; rewrite Hminx, Hmaxx; reflexivity).
  assert (Hh : double_sub (snd (minMaxLoc (ycoords lms)))
                          (fst (minMaxLoc (ycoords lms))) =
               double_sub (snd (minMaxLoc (ycoords lms')))
                          (fst (minMaxLoc (ycoords lms'))))
    by (apply round_double_comp; rewrite Hminy, Hmaxy; reflexivity).
  split.
  - exists (box_of_scans (xcoords lms) (ycoords lms)),
           (box_of_scans (xcoords lms') (ycoords lms')).
    split; [apply get_enclosing_bbox_to_row |].
    split; [apply get_enclosing_bbox_to_row |].
    cbn [box_of_scans rect_x rect_y rect_width rect_height from_double double_scalar].
    rewrite Hw, Hh. repeat split; try assumption; reflexivity.
  - rewrite !get_enclosing_bbox_to_row. unfold box_of_scans.
    cbn [from_double int_scalar]. rewrite Hw, Hh.
    f_equal. f_equal; try reflexivity; apply double_to_int_comp; assumption.
Qed.

Lemma get_enclosing_bbox_order_independent_witness :
  get_enclosing_bbox (T:=Z) (to_row Sample.fractional)
  = get_enclosing_bbox (T:=Z) (to_row (reverse Sample.fractional)).
Proof.
  apply (get_enclosing_bbox_order_independent
           Sample.fractional (reverse Sample.fractional)).
  apply perm_swap.
Defined.

Section ShiftFacts.

Lemma xcoords_shift (dx dy : Q) (lms : LandmarkCollection) :
  xcoords (shift dx dy lms) = map (fun a => a + dx) (xcoords lms).
Proof.
  unfold xcoords, shift. rewrite !map_map. reflexivity.
Qed.

Lemma ycoords_shift (dx dy : Q) (lms : LandmarkCollection) :
  ycoords (shift dx dy lms) = map (fun a => a + dy) (ycoords lms).
Proof.
  unfold ycoords, shift. rewrite !map_map. reflexivity.
Qed.

(** Adding [d] to every entry of a non-empty row adds [d] to both
    extremes. *)
Lemma minMaxLoc_add (d : Q) (src : Mat) :
  src <> [] ->
  fst (minMaxLoc (map (fun a => a + d) src)) == fst (minMaxLoc src) + d /\
  snd (minMaxLoc (map (fun a => a + d) src)) == snd (minMaxLoc src) + d.
Proof.
  intros Hne.
  assert (Hne' : map (fun a => a + d) src <> [])
    by (destruct src; [congruence | discriminate]).
  destruct (minMaxLoc_spec src Hne) as (Hmin & Hmax & Hb).
  destruct (minMaxLoc_spec _ Hne') as (Hmin' & Hmax' & Hb').
  apply list_elem_of_fmap in Hmin' as (a & Ea & Ha).
  apply list_elem_of_fmap in Hmax' as (b & Eb & Hb0).
  assert (Hin : forall c, c ∈ src -> c + d ∈ map (fun a => a + d) src).
  { intros c Hc. apply list_elem_of_fmap. exists c. split; [reflexivity | exact Hc]. }
  split; apply Qle_antisym.
  - apply Hb', Hin, Hmin.
  - rewrite Ea. apply Qplus_le_l, Hb, Ha.
  - rewrite Eb. apply Qplus_le_l, Hb, Hb0.
  - apply Hb', Hin, Hmax.
Qed.

End ShiftFacts.

(** X3: at [T = double], moving every landmark of a non-empty collection by
    [(dx, dy)] moves the corner of the box by [(dx, dy)] and leaves its
    width and height as they were. *)
Theorem get_enclosing_bbox_shift (dx dy : Q) (lms : LandmarkCollection) :
  lms <> [] ->
  exists box moved : Rect_ Q,
    get_enclosing_bbox (to_row lms) = cv_ok box /\
    get_enclosing_bbox (to_row (shift dx dy lms)) = cv_ok moved /\
    rect_x moved == rect_x box + dx /\ rect_y moved == rect_y box + dy /\
    rect_width moved == rect_width box /\
    rect_height moved == rect_height box.
Proof.
  intros Hne.
  exists (box_of_scans (xcoords lms) (ycoords lms)),
         (box_of_scans (xcoords (shift dx dy lms)) (ycoords (shift dx dy lms))).
  split; [apply get_enclosing_bbox_to_row |].
  split; [apply get_enclosing_bbox_to_row |].
  rewrite xcoords_shift, ycoords_shift.
  assert (Hxne : xcoords lms <> []) by (destruct lms; [congruence | discriminate]).
  assert (Hyne : ycoords lms <> []) by (destruct lms; [congruence | discriminate]).
  destruct (minMaxLoc_add dx _ Hxne) as [Hminx Hmaxx].
  destruct (minMaxLoc_add dy _ Hyne) as [Hminy Hmaxy].
  cbn [box_of_scans rect_x rect_y rect_width rect_height from_double double_scalar].
  repeat split; try assumption.
  - unfold double_sub. rewrite (round_double_comp _ (snd (minMaxLoc (xcoords lms))
                                                    - fst (minMaxLoc (xcoords lms)))).
    + reflexivity.
    + rewrite Hminx, Hmaxx. ring.
  - unfold double_sub. rewrite (round_double_comp _ (snd (minMaxLoc (ycoords lms))
                                                    - fst (minMaxLoc (ycoords lms)))).
    + reflexivity.
    + rewrite Hminy, Hmaxy. ring.
Qed.

Lemma get_enclosing_bbox_shift_witness :
  exists box moved : Rect_ Q,
    get_enclosing_bbox (to_row Sample.fractional) = cv_ok box /\
    get_enclosing_bbox (to_row (shift (7 # 2) (-3) Sample.fractional))
    = cv_ok moved /\
    rect_x moved == rect_x box + (7 # 2) /\ rect_y moved == rect_y box + (-3) /\
    rect_width moved == rect_width box /\
    rect_height moved == rect_height box.
Proof.
  apply (get_enclosing_bbox_shift (7 # 2) (-3) Sample.fractional).
  discriminate.
Defined.

(** X4: at [T = double] the left and the top side of the returned box are
    never inside those of a box that encloses all landmarks of a non-empty
    collection; when the two subtractions are exact the same holds for the
    right and the bottom side, and the returned box is the smallest
    enclosing one. *)
Theorem get_enclosing_bbox_smallest (lms : LandmarkCollection) (other : Rect_ Q) :
  lms <> [] ->
  encloses other lms ->
  exists box : Rect_ Q,
    get_enclosing_bbox (to_row lms) = cv_ok box /\
    left_side other <= left_side box /\ top_side other <= top_side box /\
    (stored_exactly Q lms = true ->
     right_side box <= right_side other /\ bottom_side box <= bottom_side other).
Proof.
  intros Hne Hother.
  exists (box_of_scans (xcoords lms) (ycoords lms)).
  split; [apply get_enclosing_bbox_to_row |].
  assert (Hxne : xcoords lms <> []) by (destruct lms; [congruence | discriminate]).
  assert (Hyne : ycoords lms <> []) by (destruct lms; [congruence | discriminate]).
  destruct (minMaxLoc_spec _ Hxne) as (Hminx & _ & _).
  destruct (minMaxLoc_spec _ Hyne) as (Hminy & _ & _).
  apply elem_of_xcoords in Hminx as (a & Ha & Ea).
  apply elem_of_ycoords in Hminy as (c & Hc & Ec).
  destruct (Hother a Ha) as [[A1 _] _]. destruct (Hother c Hc) as [_ [A3 _]].
  rewrite Ea in A1. rewrite Ec in A3.
  split; [exact A1 |]. split; [exact A3 |].
  intros Hexact. apply (box_of_scans_exact_iff (T:=Q) lms Hne) in Hexact.
  destruct Hexact as [_ (_ & (l2 & Hl2 & E2) & _ & (l4 & Hl4 & E4))].
  rewrite <- E2, <- E4.
  destruct (Hother l2 Hl2) as [[_ ?] _]. destruct (Hother l4 Hl4) as [_ [_ ?]].
  split; assumption.
Qed.

Lemma get_enclosing_bbox_smallest_witness :
  exists box : Rect_ Q,
    get_enclosing_bbox (to_row Sample.whole) = cv_ok box /\
    left_side (mkRect 0 0 10 10) <= left_side box /\
    top_side (mkRect 0 0 10 10) <= top_side box /\
    (stored_exactly Q Sample.whole = true ->
     right_side box <= right_side (mkRect 0 0 10 10) /\
     bottom_side box <= bottom_side (mkRect 0 0 10 10)).
Proof.
  apply (get_enclosing_bbox_smallest Sample.whole (mkRect 0 0 10 10)).
  - discriminate.
  - intros l Hl. unfold Sample.whole in Hl.
    apply elem_of_cons in Hl as [-> | Hl];
      [| apply list_elem_of_singleton in Hl as ->];
      vm_compute; repeat split; discriminate.
Defined.

(** X5: when the box at [T = double] encloses the landmarks and each of its
    fields fits an [int], the box at the default [T = int] misses a
    landmark by less than two pixels: for every landmark,
    [x - 1 < p.x < x + width + 2] and [y - 1 < p.y < y + height + 2]. *)
Theorem get_enclosing_bbox_int_near (lms : LandmarkCollection) (boxd : Rect_ Q) :
  get_enclosing_bbox (to_row lms) = cv_ok boxd ->
  encloses boxd lms ->
  fits_int (rect_x boxd) && fits_int (rect_y boxd) &&
  fits_int (rect_width boxd) && fits_int (rect_height boxd) = true ->
  exists box : Rect_ Z,
    get_enclosing_bbox (to_row lms) = cv_ok box /\
    forall l, l ∈ lms ->
      left_side box - 1 < fst (coordinates l) < right_side box + 2 /\
      top_side box - 1 < snd (coordinates l) < bottom_side box + 2.
Proof.
  intros Hboxd Henc Hfits.
  rewrite get_enclosing_bbox_to_row in Hboxd. injection Hboxd as <-.
  exists (box_of_scans (xcoords lms) (ycoords lms)).
  split; [apply get_enclosing_bbox_to_row |].
  rewrite !andb_true_iff in Hfits. destruct Hfits as [[[Fx Fy] Fw] Fh].
  cbn [box_of_scans rect_x rect_y rect_width rect_height from_double double_scalar]
    in Fx, Fy, Fw, Fh.
  intros l Hl. specialize (Henc l Hl).
  unfold left_side, right_side, top_side, bottom_side, box_of_scans in *.
  cbn [rect_x rect_y rect_width rect_height from_double to_real
       int_scalar double_scalar] in *.
  rewrite !double_to_int_fits by assumption.
  pose proof (truncate_near (fst (minMaxLoc (xcoords lms)))).
  pose proof (truncate_near
                (double_sub (snd (minMaxLoc (xcoords lms)))
                            (fst (minMaxLoc (xcoords lms))))).
  pose proof (truncate_near (fst (minMaxLoc (ycoords lms)))).
  pose proof (truncate_near
                (double_sub (snd (minMaxLoc (ycoords lms)))
                            (fst (minMaxLoc (ycoords lms))))).
  repeat split; lra.
Qed.

Lemma get_enclosing_bbox_int_near_witness :
  exists box : Rect_ Z,
    get_enclosing_bbox (to_row Sample.fractional) = cv_ok box /\
    forall l, l ∈ Sample.fractional ->
      left_side box - 1 < fst (coordinates l) < right_side box + 2 /\
      top_side box - 1 < snd (coordinates l) < bottom_side box + 2.
Proof.
  apply (get_enclosing_bbox_int_near Sample.fractional
           (mkRect (1 # 2) (1 # 2) 1 2)).
  - reflexivity.
  - intros l Hl. unfold Sample.fractional in Hl.
    apply elem_of_cons in Hl as [-> | Hl];
      [| apply list_elem_of_singleton in Hl as ->];
      vm_compute; repeat split; discriminate.
  - reflexivity.
Defined.

(** X6: a row need not have an even number of columns.  When the row is
    [xs] followed by [ys] and [ys] has as many entries as [xs] or one more,
    the first scan runs over [xs] and the second over [ys]: the middle
    column of an odd row counts as a y coordinate. *)
Theorem get_enclosing_bbox_odd_row (T : Type) `{RectScalar T} (xs ys : Mat) :
  (length xs <= length ys <= length xs + 1)%nat ->
  get_enclosing_bbox (T:=T) (xs ++ ys) = cv_ok (box_of_scans xs ys).
Proof.
  intros Hlen. rewrite get_enclosing_bbox_unfold.
  assert (Hhalf : half (xs ++ ys) = length xs).
  { unfold half, cols. rewrite length_app.
    rewrite Z.quot_div_nonneg by lia.
    assert (Z.of_nat (length xs + length ys) `div` 2 = Z.of_nat (length xs))%Z.
    { symmetry.
      apply Z.div_unique_pos with (Z.of_nat (length ys - length xs)); lia. }
    lia. }
  rewrite Hhalf, take_app_length, drop_app_length. reflexivity.
Qed.

Lemma get_enclosing_bbox_odd_row_witness :
  get_enclosing_bbox (T:=Z) ([3] ++ [4; 5]) = cv_ok (box_of_scans [3] [4; 5]).
Proof.
  apply (get_enclosing_bbox_odd_row Z [3] [4; 5]). simpl. lia.
Defined.

(** X7: at [T = double] the box of a non-empty collection has width zero
    exactly when all landmarks have the same x coordinate, and height zero
    exactly when all have the same y coordinate. *)
Theorem get_enclosing_bbox_degenerate (lms : LandmarkCollection) :
  lms <> [] ->
  exists box : Rect_ Q,
    get_enclosing_bbox (to_row lms) = cv_ok box /\
    (rect_width box == 0 <->
     forall l l', l ∈ lms -> l' ∈ lms ->
       fst (coordinates l) == fst (coordinates l')) /\
    (rect_height box == 0 <->
     forall l l', l ∈ lms -> l' ∈ lms ->
       snd (coordinates l) == snd (coordinates l')).
Proof.
  intros Hne.
  exists (box_of_scans (xcoords lms) (ycoords lms)).
  split; [apply get_enclosing_bbox_to_row |].
  assert (Hxne : xcoords lms <> []) by (destruct lms; [congruence | discriminate]).
  assert (Hyne : ycoords lms <> []) by (destruct lms; [congruence | discriminate]).
  destruct (minMaxLoc_spec _ Hxne) as (Hminx & Hmaxx & Hbx).
  destruct (minMaxLoc_spec _ Hyne) as (Hminy & Hmaxy & Hby).
  cbn [box_of_scans rect_width rect_height from_double double_scalar].
  unfold double_sub. rewrite !round_double_zero.
  split; split.
  - intros Hzero l l' Hl Hl'.
    assert (Ha : fst (coordinates l) ∈ xcoords lms) by (apply elem_of_xcoords; eauto).
    assert (Hb : fst (coordinates l') ∈ xcoords lms) by (apply elem_of_xcoords; eauto).
    apply Hbx in Ha. apply Hbx in Hb. apply Qle_antisym; lra.
  - intros Hsame.
    apply elem_of_xcoords in Hminx as (l & Hl & El).
    apply elem_of_xcoords in Hmaxx as (l' & Hl' & El').
    rewrite <- El, <- El', (Hsame l l' Hl Hl'). ring.
  - intros Hzero l l' Hl Hl'.
    assert (Ha : snd (coordinates l) ∈ ycoords lms) by (apply elem_of_ycoords; eauto).
    assert (Hb : snd (coordinates l') ∈ ycoords lms) by (apply elem_of_ycoords; eauto).
    apply Hby in Ha. apply Hby in Hb. apply Qle_antisym; lra.
  - intros Hsame.
    apply elem_of_ycoords in Hminy as (l & Hl & El).
    apply elem_of_ycoords in Hmaxy as (l' & Hl' & El').
    rewrite <- El, <- El', (Hsame l l' Hl Hl'). ring.
Qed.

Lemma get_enclosing_bbox_degenerate_witness :
  exists box : Rect_ Q,
    get_enclosing_bbox (to_row Sample.whole) = cv_ok box /\
    (rect_width box == 0 <->
     forall l l', l ∈ Sample.whole -> l' ∈ Sample.whole ->
       fst (coordinates l) == fst (coordinates l')) /\
    (rect_height box == 0 <->
     forall l l', l ∈ Sample.whole -> l' ∈ Sample.whole ->
       snd (coordinates l) == snd (coordinates l')).
Proof.
  apply (get_enclosing_bbox_degenerate Sample.whole). discriminate.
Defined.

(** ** The frame loop *)

(** X8: an empty frame ends the loop: the frames that follow it in the
    stream are never processed, and the empty frame itself is neither
    shown nor given to the detector. *)
Theorem track_loop_stops_at_empty_frame (W : Collaborators)
    (rcr_model : detection_model W) (face_cascade : CascadeClassifier W)
    (before after : list (Image W * Z)) (empty : Image W) (key : Z)
    (st : TrackState) :
  image_empty W empty = true ->
  track_loop W rcr_model face_cascade (before ++ (empty, key) :: after) st =
  track_loop W rcr_model face_cascade before st.
Proof.
  intros Hempty. revert st.
  induction before as [|[image k] rest IH]; intros st.
  - cbn [app track_loop]. rewrite Hempty. reflexivity.
  - cbn [app track_loop]. destruct (image_empty W image); [reflexivity |].
    destruct (it_break (loop_body W rcr_model face_cascade image k st));
      [reflexivity |].
    rewrite IH. reflexivity.
Qed.

Lemma track_loop_stops_at_empty_frame_witness :
  track_loop Sample.world tt tt
    ([(Sample.Captured 1, -1)%Z] ++ (Sample.NoFrame, 27%Z) :: Sample.video)
    initial_state =
  track_loop Sample.world tt tt [(Sample.Captured 1, -1)%Z] initial_state.
Proof.
  apply (track_loop_stops_at_empty_frame Sample.world tt tt
           [(Sample.Captured 1, -1)%Z] Sample.video Sample.NoFrame 27 initial_state).
  reflexivity.
Defined.

(** X9: the loop processes the delivered frames in order, and all of them
    unless it is left early; it is left early only right after a frame in
    which the detector found a face and during which a key was pressed.  A
    key pressed while a frame without a face is shown does not end the
    loop. *)
Theorem track_loop_stops_only_on_key_with_face :
  forall (W : Collaborators) (rcr_model : detection_model W)
         (face_cascade : CascadeClassifier W) (frames : list (Image W * Z)),
    let its := track_loop W rcr_model face_cascade frames initial_state in
    map it_frame its `prefix_of` delivered W frames /\
    (map it_frame its = delivered W frames \/
     exists it key,
       last its = Some it /\
       no_face W face_cascade (it_frame it) = false /\ (0 <= key)%Z /\
       last (it_events it) = Some (EvWaitKey key)).
Proof.
  intros W rcr_model face_cascade frames.
  assert (Hgen : forall st, have_face st = false ->
    let its := track_loop W rcr_model face_cascade frames st in
    map it_frame its `prefix_of` delivered W frames /\
    (map it_frame its = delivered W frames \/
     exists it key,
       last its = Some it /\
       no_face W face_cascade (it_frame it) = false /\ (0 <= key)%Z /\
       last (it_events it) = Some (EvWaitKey key))).
  { induction frames as [|[image key] rest IH]; intros st Hst; cbn zeta.
    - split; [reflexivity | left; reflexivity].
    - cbn [track_loop delivered].
      destruct (image_empty W image); [split; [reflexivity | left; reflexivity] |].
      cbn [map]. rewrite loop_body_frame.
      destruct (it_break (loop_body W rcr_model face_cascade image key st)) eqn:Hbreak.
      + split; [apply prefix_cons, prefix_nil |].
        right. exists (loop_body W rcr_model face_cascade image key st), key.
        destruct (loop_body_break W rcr_model face_cascade image key st Hst Hbreak)
          as (Hface & Hkey & Hlast).
        rewrite loop_body_frame. repeat split; assumption.
      + assert (Hnext : have_face
                  (it_state (loop_body W rcr_model face_cascade image key st)) = false)
          by (rewrite loop_body_have_face; exact Hst).
        destruct (IH _ Hnext) as [Hpre Hend]. split; [apply prefix_cons, Hpre |].
        destruct Hend as [Hall | (it & k & Hlast & Hrest)].
        * left. rewrite Hall. reflexivity.
        * right. exists it, k. split; [| exact Hrest].
          rewrite last_cons, Hlast. reflexivity. }
  apply Hgen. reflexivity.
Qed.

(** X10: the program runs the face detector exactly once on every frame it
    processes, on the frame as captured; the landmark model is run exactly
    once for every processed frame with a face, on that frame with the
    rectangle of the first candidate drawn into it, and never for a frame
    without a face. *)
Theorem detector_runs_on_every_frame :
  forall (W : Collaborators) (rcr_model : detection_model W)
         (face_cascade : CascadeClassifier W) (frames : list (Image W * Z)),
    let its := track_loop W rcr_model face_cascade frames initial_state in
    detector_inputs (loop_events W its) = map it_frame its /\
    model_inputs (loop_events W its) =
      omap (fun it =>
              match detectMultiScale W face_cascade (it_frame it) with
              | [] => None
              | face0 :: _ => Some (rectangle W (it_frame it) face0, face0)
              end) its.
Proof.
  intros W rcr_model face_cascade frames.
  assert (Hgen : forall st, have_face st = false ->
    let its := track_loop W rcr_model face_cascade frames st in
    detector_inputs (loop_events W its) = map it_frame its /\
    model_inputs (loop_events W its) =
      omap (fun it =>
              match detectMultiScale W face_cascade (it_frame it) with
              | [] => None
              | face0 :: _ => Some (rectangle W (it_frame it) face0, face0)
              end) its).
  { induction frames as [|[image key] rest IH]; intros st Hst; cbn zeta.
    - split; reflexivity.
    - cbn [track_loop]. destruct (image_empty W image); [split; reflexivity |].
      rewrite loop_events_cons, detector_inputs_app, model_inputs_app.
      destruct (loop_body_calls W rcr_model face_cascade image key st Hst)
        as [Hdet Hmod].
      rewrite Hdet, Hmod, omap_cons_app. cbn [map]. rewrite !loop_body_frame.
      assert (Hnext : have_face
                (it_state (loop_body W rcr_model face_cascade image key st)) = false)
        by (rewrite loop_body_have_face; exact Hst).
      assert (Hhead :
        match detectMultiScale W face_cascade image with
        | [] => []
        | face0 :: _ => [(rectangle W image face0, face0)]
        end =
        from_option (fun y => [y]) []
          match detectMultiScale W face_cascade image with
          | [] => None
          | face0 :: _ => Some (rectangle W image face0, face0)
          end)
        by (destruct (detectMultiScale W face_cascade image); reflexivity).
      rewrite Hhead.
      destruct (it_break (loop_body W rcr_model face_cascade image key st)).
      + split; reflexivity.
      + destruct (IH _ Hnext) as [IHdet IHmod]. rewrite IHdet, IHmod.
        split; reflexivity. }
  apply Hgen. reflexivity.
Qed.

(** X11: from any state, every processed frame is shown exactly once, and
    what is shown is the frame buffer as the iteration leaves it. *)
Theorem every_iteration_shows_its_buffer :
  forall (W : Collaborators) (rcr_model : detection_model W)
         (face_cascade : CascadeClassifier W) (frames : list (Image W * Z))
         (st : TrackState),
    let its := track_loop W rcr_model face_cascade frames st in
    shown_images (loop_events W its) = map it_image its.
Proof.
  intros W rcr_model face_cascade frames.
  induction frames as [|[image key] rest IH]; intros st; cbn zeta.
  - reflexivity.
  - cbn [track_loop]. destruct (image_empty W image); [reflexivity |].
    rewrite loop_events_cons, shown_images_app, loop_body_shown. cbn [map app].
    destruct (it_break (loop_body W rcr_model face_cascade image key st)).
    + reflexivity.
    + f_equal. apply IH.
Qed.

(** X12: the landmarks fitted in earlier frames have no influence on what
    the program does with later frames: two runs over the same frames that
    start without a face but with different [current_landmarks] make the
    same calls in the same order. *)
Theorem earlier_landmarks_are_not_used :
  forall (W : Collaborators) (rcr_model : detection_model W)
         (face_cascade : CascadeClassifier W) (frames : list (Image W * Z))
         (lms lms' : LandmarkCollection),
    loop_events W
      (track_loop W rcr_model face_cascade frames (mkTrackState false lms)) =
    loop_events W
      (track_loop W rcr_model face_cascade frames (mkTrackState false lms')).
Proof.
  intros W rcr_model face_cascade frames.
  induction frames as [|[image key] rest IH]; intros lms lms'.
  - reflexivity.
  - cbn [track_loop]. destruct (image_empty W image); [reflexivity |].
    rewrite !loop_events_cons.
    destruct (loop_body_forgets W rcr_model face_cascade image key lms lms')
      as (Hev & Hbr & kept & kept' & Hst & Hst').
    rewrite Hev, Hbr, Hst, Hst'.
    destruct (it_break
                (loop_body W rcr_model face_cascade image key (mkTrackState false lms')));
      [reflexivity |].
    f_equal. apply IH.
Qed.

(** ** [main] *)

Section OptionFacts.

Lemma store_lookup_other (parsed : gmap string string) (key : string) :
  key <> "model" -> store parsed !! key = parsed !! key.
Proof.
  intros Hkey. unfold store. destruct (parsed !! "model"); [reflexivity |].
  apply lookup_insert_ne. congruence.
Qed.

Lemma store_lookup_model (parsed : gmap string string) :
  store parsed !! "model" = Some (default default_model (parsed !! "model")).
Proof.
  unfold store. destruct (parsed !! "model") eqn:E; cbn [default].
  - exact E.
  - apply lookup_insert_eq.
Qed.

End OptionFacts.

(** X13: a command line that the parser accepts and that asks for help is
    answered with the usage text and [EXIT_SUCCESS], also when the required
    face detector option is missing: the required options are not checked,
    and neither model, detector nor capture are touched.  (A command line
    that the parser rejects gets the parse error, with or without a help
    option: the parser runs first.) *)
Theorem help_is_answered_first (W : Collaborators) (argv : list string)
    (parsed : gmap string string) :
  parse_command_line W argv = po_ok parsed ->
  is_Some (parsed !! "help") ->
  main W argv =
    (EXIT_SUCCESS, [EvCout "Usage: rcr-track [options]"; EvCoutOptions]).
Proof.
  intros Hparse Hhelp. unfold main, parse_options. rewrite Hparse. cbn zeta.
  rewrite bool_decide_eq_true_2; [reflexivity |].
  rewrite store_lookup_other by discriminate. exact Hhelp.
Qed.

Lemma help_is_answered_first_witness :
  main Sample.world ["rcr-track"; "--model"; "nowhere.bin"; "-h"] =
    (EXIT_SUCCESS, [EvCout "Usage: rcr-track [options]"; EvCoutOptions]).
Proof.
  apply (help_is_answered_first Sample.world _
           (<["help" := ""]> (<["model" := "nowhere.bin"]> ∅))).
  - reflexivity.
  - vm_compute. eexists. reflexivity.
Defined.

(** X14: of the two options declared required, only [facedetector] can be
    reported missing: after [store], [notify] throws exactly when no face
    detector was given, and then with the message for that option; the
    default of [model] always satisfies the other requirement. *)
Theorem only_facedetector_can_be_missing :
  forall (parsed : gmap string string) (what : string),
    notify (store parsed) = po_error what <->
    parsed !! "facedetector" = None /\
    what = "the option '--facedetector' is required but missing".
Proof.
  intros parsed what. unfold notify.
  rewrite store_lookup_model, store_lookup_other by discriminate.
  destruct (parsed !! "facedetector"); split.
  - discriminate.
  - intros [Hnone _]. discriminate Hnone.
  - intros Herr. injection Herr as <-. split; reflexivity.
  - intros [_ ->]. reflexivity.
Qed.

(** X15: a run that ends with [EXIT_FAILURE] has printed exactly one line
    and done nothing else: no window was opened and no frame was read,
    shown or searched.  Such a run did not stop in option parsing. *)
Theorem failure_prints_one_line (W : Collaborators) (argv : list string) :
  fst (main W argv) = EXIT_FAILURE ->
  (exists line, snd (main W argv) = [EvCout line]) /\
  exists vm, parse_options W argv = inr vm.
Proof.
  unfold main. destruct (parse_options W argv) as [[status out] | vm] eqn:Hopts.
  - intros Hfail. exfalso. cbn [fst] in Hfail. subst status.
    unfold parse_options in Hopts.
    destruct (parse_command_line W argv); [| discriminate Hopts].
    cbn zeta in Hopts.
    destruct (bool_decide (is_Some (store a !! "help"))); [discriminate Hopts |].
    destruct (notify (store a)); discriminate Hopts.
  - cbn zeta. intros Hfail. split; [| eauto].
    destruct (load_detection_model W (default "" (vm !! "model"))); [| eauto].
    destruct (cascade_load W (default "" (vm !! "facedetector"))); [| eauto].
    destruct (capture_open W _); [discriminate Hfail | eauto].
Qed.

Lemma failure_prints_one_line_witness :
  (exists line,
     snd (main Sample.world ["rcr-track"; "-f"; "missing.xml"]) = [EvCout line]) /\
  exists vm, parse_options Sample.world ["rcr-track"; "-f"; "missing.xml"] = inr vm.
Proof.
  apply (failure_prints_one_line Sample.world ["rcr-track"; "-f"; "missing.xml"]).
  vm_compute. reflexivity.
Defined.

(** X16: when everything loads and the capture delivers no frame, or an
    empty frame first, [main] opens the window and returns [EXIT_SUCCESS]
    without running the detector or the landmark model and without showing
    anything. *)
Theorem empty_stream_ends_at_once (W : Collaborators) (argv : list string)
    (vm : gmap string string) (rcr_model : detection_model W)
    (face_cascade : CascadeClassifier W) (frames : list (Image W * Z)) :
  parse_options W argv = inr vm ->
  load_detection_model W (default "" (vm !! "model")) = cereal_ok rcr_model ->
  cascade_load W (default "" (vm !! "facedetector")) = Some face_cascade ->
  capture_open W (if bool_decide (default "" (vm !! "image") = "") then None
                  else Some (default "" (vm !! "image"))) = Some frames ->
  delivered W frames = [] ->
  main W argv = (EXIT_SUCCESS, [EvNamedWindow "video"]).
Proof.
  intros Hopts Hmodel Hcascade Hcap Hnone.
  unfold main. rewrite Hopts. cbn zeta. rewrite Hmodel, Hcascade, Hcap.
  rewrite track_loop_delivered_nil by exact Hnone. reflexivity.
Qed.

Lemma empty_stream_ends_at_once_witness :
  main Sample.world ["rcr-track"; "-f"; "haarcascade_frontalface_alt2.xml"]
  = (EXIT_SUCCESS, [EvNamedWindow "video"]).
Proof.
  apply (empty_stream_ends_at_once Sample.world _
           (<["model" := default_model]>
              (<["facedetector" := "haarcascade_frontalface_alt2.xml"]> ∅))
           tt tt []).
  - vm_compute. reflexivity.
  - vm_compute. reflexivity.
  - vm_compute. reflexivity.
  - vm_compute. reflexivity.
  - reflexivity.
Defined.

(** X17: without a [model] option the model is read from
    data/rcr/face_landmarks_model_rcr_22.bin; when reading it fails, [main]
    reports that path and returns [EXIT_FAILURE], whatever the face
    detector file and the video source are. *)
Theorem default_model_is_read (W : Collaborators) (argv : list string)
    (parsed : gmap string string) (what : string) :
  parse_command_line W argv = po_ok parsed ->
  parsed !! "help" = None ->
  is_Some (parsed !! "facedetector") ->
  parsed !! "model" = None ->
  load_detection_model W default_model = cereal_error what ->
  main W argv =
    (EXIT_FAILURE,
     [EvCout ("Error reading the RCR model " +:+ quoted default_model
              +:+ ": " +:+ what)]).
Proof.
  intros Hparse Hhelp [detector Hdet] Hmodel Hload.
  unfold main, parse_options. rewrite Hparse. cbn zeta.
  rewrite bool_decide_eq_false_2.
  2:{ rewrite store_lookup_other by discriminate. rewrite Hhelp.
      intros [? ?]. discriminate. }
  assert (Hm : store parsed !! "model" = Some default_model)
    by (rewrite store_lookup_model, Hmodel; reflexivity).
  assert (Hf : store parsed !! "facedetector" = Some detector)
    by (rewrite store_lookup_other by discriminate; exact Hdet).
  unfold notify. rewrite Hm, Hf. cbn zeta iota. rewrite Hm.
  cbn [from_option id]. rewrite Hload. reflexivity.
Qed.

Lemma default_model_is_read_witness :
  main unprovisioned_world ["rcr-track"; "-f"; "haarcascade_frontalface_alt2.xml"] =
    (EXIT_FAILURE,
     [EvCout ("Error reading the RCR model " +:+ quoted default_model
              +:+ ": " +:+ "Failed to read 4 bytes from input stream")]).
Proof.
  apply (default_model_is_read unprovisioned_world _
           (<["facedetector" := "haarcascade_frontalface_alt2.xml"]> ∅)).
  - reflexivity.
  - vm_compute. reflexivity.
  - vm_compute. eexists. reflexivity.
  - vm_compute. reflexivity.
  - reflexivity.
Defined.
